(** * tagz.lol API: a shallow embedding of [main.py]

    The service is a FastAPI application over two SQLAlchemy tables
    ([users], [links]), password hashing through passlib's bcrypt
    context and bearer tokens through python-jose.  This file embeds
    the request handlers of [main.py] as functions over an explicit
    database value and proves the properties the specification states
    about them.

    Conventions.
    - A Python [str] is a [string] holding its UTF-8 encoding: [len]
      counts its bytes and [char_len] its characters.  [str.lower] is
      Unicode lowering; it is the parameter [lower] of the development,
      used through the one fact that lowering twice is lowering once.
    - A Python [int] is a [Z]; a column of type [Integer] holds the values
      that [fits_int64] accepts.
    - A [datetime] is the number of microseconds since the epoch, and
      [timegm] cuts it to the whole seconds that jose stores in [exp] and
      compares the clock with.
    - A Python exception is a value of [exn]; a computation that may
      raise has type [py A].
    - The database session is an explicit [DB] value; a handler that
      commits returns the new one.
    - passlib, jose and pydantic are embedded by what they do on the
      calls [main.py] makes; bcrypt itself, SHA-256, [int] on strings and
      the email validator stay parameters of the development. *)

From Stdlib Require Import ZArith List String Ascii Bool Lia.
From Stdlib Require Import Sorting.Sorted Sorting.Permutation.
Import ListNotations.
Local Open Scope string_scope.
Local Open Scope Z_scope.

(* ================================================================== *)
(** ** Python values and exceptions *)

(** [str.lower] on one ASCII character. *)
Definition lower_ascii (c : ascii) : ascii :=
  let n := nat_of_ascii c in
  if (Nat.leb 65 n && Nat.leb n 90)%bool then ascii_of_nat (n + 32) else c.

(** [str.lower] as it acts on ASCII text: the instance of [lower] on which
    the handlers are run below. *)
Fixpoint ascii_lower (s : string) : string :=
  match s with
  | EmptyString => EmptyString
  | String c r => String (lower_ascii c) (ascii_lower r)
  end.

(** [len(s.encode())]: the number of bytes. *)
Definition len (s : string) : Z := Z.of_nat (String.length s).

(** A byte [10xxxxxx] continues a character begun before it. *)
Definition is_continuation (c : ascii) : bool :=
  let n := nat_of_ascii c in (Nat.leb 128 n && Nat.leb n 191)%bool.

Fixpoint code_points (s : string) : nat :=
  match s with
  | EmptyString => 0%nat
  | String c r => if is_continuation c then code_points r
                  else S (code_points r)
  end.

(** [len(s)] on a [str]: the number of characters, which is what
    pydantic's [min_length] and [max_length] count. *)
Definition char_len (s : string) : Z := Z.of_nat (code_points s).

(** What SQLite stores in an [INTEGER] column: a signed 64-bit value.  The
    driver raises [OverflowError] on any other [int]. *)
Definition fits_int64 (n : Z) : bool :=
  ((- 2 ^ 63 <=? n) && (n <? 2 ^ 63))%bool.

(** [timegm(dt.utctimetuple())]: the whole seconds of a [datetime]. *)
Definition timegm (dt : Z) : Z := dt / 1000000.

(** [timedelta(minutes=m)]. *)
Definition timedelta_minutes (m : Z) : Z := m * 60 * 1000000.

(** [s.startswith(p)]. *)
Definition startswith (s p : string) : bool := String.prefix p s.

(** The exceptions that the handlers and the libraries they call raise. *)
Inductive exn : Type :=
| HTTPException (status_code : Z) (detail : string)
| RequestValidationError        (* FastAPI: body rejected by pydantic, 422 *)
| JWTError                      (* jose: also its subclasses
                                   ExpiredSignatureError, JWTClaimsError *)
| AttributeError                (* attribute access on None *)
| TypeError                     (* [int(None)], [int([...])] *)
| OverflowError                 (* sqlite3: int too large for INTEGER *)
| UnknownHashError              (* passlib: hash could not be identified *)
| MalformedHashError            (* passlib: ValueError *)
| MissingDigestError            (* passlib: ValueError *)
| PasswordSizeError             (* passlib: ValueError *)
| NullPasswordError.            (* passlib: ValueError *)

(** A computation that returns or raises. *)
Inductive py (A : Type) : Type :=
| Return (a : A)
| Raise (e : exn).
Arguments Return {A} a.
Arguments Raise {A} e.

Definition bind {A B : Type} (m : py A) (k : A -> py B) : py B :=
  match m with
  | Return a => k a
  | Raise e => Raise e
  end.

Notation "x <- m ;; k" := (bind m (fun x => k))
  (at level 61, m at next level, right associativity).

(** What the HTTP client can tell about a failed request: FastAPI turns an
    [HTTPException] into its status and detail, a validation failure into
    422, and anything else into a bare 500. *)
Definition typed_failure (e : exn) : bool :=
  match e with
  | HTTPException _ _ | RequestValidationError => true
  | _ => false
  end.

(** JSON values of a token payload (numbers are integers; a payload with
    a fraction or an object as a claim value is outside the model). *)
Inductive json : Type :=
| JStr (s : string)
| JInt (n : Z)
| JBool (b : bool)
| JNull
| JList.                        (* an array, whatever its elements *)

(** A Python [dict] with string keys, in insertion order. *)
Definition dict : Type := list (string * json).

Fixpoint dict_get (k : string) (d : dict) : option json :=
  match d with
  | [] => None
  | (k', v) :: r => if String.eqb k k' then Some v else dict_get k r
  end.

(** [d[k] = v]. *)
Fixpoint dict_set (k : string) (v : json) (d : dict) : dict :=
  match d with
  | [] => [(k, v)]
  | (k', v') :: r =>
      if String.eqb k k' then (k, v) :: r else (k', v') :: dict_set k v r
  end.

Section Sorted.
Context {A : Type} (key : A -> Z).

(** [x] goes in front of the first element whose key is not smaller. *)
Fixpoint insert_by (x : A) (l : list A) : list A :=
  match l with
  | [] => [x]
  | y :: r => if key x <=? key y then x :: y :: r else y :: insert_by x r
  end.

(** [sorted(l, key=key)].  Python's sort is stable, and a stable sort has
    one possible output ([sorted_unique] below); it is computed here by
    insertion from the right. *)
Definition sorted (l : list A) : list A := fold_right insert_by [] l.

(** The order a stable sort by [key] produces from a list ordered by
    [before]: smaller key first, and [before] among equal keys. *)
Definition key_then (before : A -> A -> Prop) (a b : A) : Prop :=
  key a < key b \/ (key a = key b /\ before a b).
End Sorted.

(** [enumerate(l)], counting from [i]. *)
Fixpoint enumerate_from {A : Type} (i : Z) (l : list A) : list (Z * A) :=
  match l with
  | [] => []
  | x :: r => (i, x) :: enumerate_from (i + 1) r
  end.

Definition enumerate {A : Type} (l : list A) : list (Z * A) :=
  enumerate_from 0 l.

(** A bearer token, seen symbolically.  A string is either not a compact
    JWS at all ([Opaque]: wrong number of segments, bad base64url, bad JSON,
    a signature segment that is no MAC of the signing input), or the
    serialisation of a header naming [alg], a payload [claims] and the MAC
    of both under [key].  Verification under a key succeeds exactly for the
    keys that HMAC treats as the key the MAC was made with ([hmac_key]
    below); collisions of the MAC itself are idealised away, as usual for a
    symbolic model of signatures. *)
Inductive token : Type :=
| Opaque (raw : string)
| Jws (alg : string) (key : string) (claims : dict).

(* ================================================================== *)
(** ** Tables and schemas *)

Module User.
Record t : Type := mk {
  id : Z;
  username : string;
  email : string;
  password_hash : string;
  bio : option string;
  avatar_url : option string;
  theme_hex : option string;
  created_at : Z
}.
End User.

Module Link.
Record t : Type := mk {
  id : Z;
  user_id : Z;
  title : string;
  url : string;
  icon : option string;
  order_index : Z
}.
End Link.

Module LinkIn.
(** The JSON object as the client sent it, when it has a [title] and a
    [url] and every field has the type the schema declares: [icon] and
    [order_index] may be left out.  pydantic refuses any other object. *)
Record body : Type := mkBody {
  body_title : string;
  body_url : string;
  body_icon : option string;
  body_order_index : option Z
}.

Record t : Type := mk {
  title : string;
  url : string;
  icon : option string;
  order_index : Z
}.

(** pydantic: [title] has [max_length=100]; [order_index: int = 0]. *)
Definition model_validate (b : body) : option t :=
  if char_len (body_title b) <=? 100 then
    Some (mk (body_title b) (body_url b) (body_icon b)
             (match body_order_index b with Some n => n | None => 0 end))
  else None.
End LinkIn.

Module LinkOut.
Record t : Type := mk {
  title : string;
  url : string;
  icon : option string;
  order_index : Z;
  id : Z
}.

(** [LinkOut.model_validate(l)] with [from_attributes]. *)
Definition model_validate (l : Link.t) : t :=
  mk (Link.title l) (Link.url l) (Link.icon l) (Link.order_index l)
     (Link.id l).
End LinkOut.

Module UserPublic.
Record t : Type := mk {
  username : string;
  bio : option string;
  avatar_url : option string;
  theme_hex : option string;
  links : list LinkOut.t
}.
End UserPublic.

Module SignupIn.
Record t : Type := mk {
  username : string;
  email : string;
  password : string
}.
End SignupIn.

Module UpdateProfileIn.
(** The JSON body of [PUT /api/me] when every field that is present has
    the type the schema declares; a field left out (or null) is [None]. *)
Record body : Type := mkBody {
  body_bio : option string;
  body_avatar_url : option string;
  body_theme_hex : option string;
  body_links : option (list LinkIn.body)
}.

Record t : Type := mk {
  bio : option string;
  avatar_url : option string;
  theme_hex : option string;
  links : option (list LinkIn.t)
}.

(** Every element of a list field has to validate. *)
Fixpoint validate_links (l : list LinkIn.body) : option (list LinkIn.t) :=
  match l with
  | [] => Some []
  | b :: r =>
      match LinkIn.model_validate b, validate_links r with
      | Some x, Some xs => Some (x :: xs)
      | _, _ => None
      end
  end.

Definition model_validate (b : body) : option t :=
  match body_links b with
  | None => Some (mk (body_bio b) (body_avatar_url b) (body_theme_hex b) None)
  | Some l =>
      match validate_links l with
      | Some ls =>
          Some (mk (body_bio b) (body_avatar_url b) (body_theme_hex b)
                   (Some ls))
      | None => None
      end
  end.
End UpdateProfileIn.

Module TokenOut.
Record t : Type := mk {
  access_token : token;
  token_type : string
}.
End TokenOut.

(** The two tables, rows in rowid order. *)
Record DB : Type := mkDB {
  users : list User.t;
  links : list Link.t
}.

Definition empty_db : DB := mkDB [] [].

(** The key an [INTEGER PRIMARY KEY] column gets on insert (SQLite, the
    default [DATABASE_URL]): one more than the largest key in the table. *)
Definition next_id (ids : list Z) : Z := 1 + fold_right Z.max 0 ids.

(** [db.query(User).filter(p).first()]. *)
Definition query_user_first (db : DB) (p : User.t -> bool) : option User.t :=
  find p (users db).

(** [u.links]: the relationship loads the rows of [links] whose foreign key
    is [u.id]. *)
Definition user_links (db : DB) (u : User.t) : list Link.t :=
  filter (fun l => Link.user_id l =? User.id u) (links db).

(* ================================================================== *)
(** ** Configuration *)

Definition ALGORITHM : string := "HS256".

(** 14 days. *)
Definition ACCESS_TOKEN_MINUTES : Z := 60 * 24 * 14.

(** [theme_hex]'s column default. *)
Definition DEFAULT_THEME : string := "#00ff88".

(* ================================================================== *)
(** ** The service *)

Section Service.

(** [SECRET_KEY]: process-wide configuration, read once from the
    environment. *)
Variable SECRET_KEY : string.

(** The bcrypt function itself: identifier, cost, 22-character salt and
    password to the 31-character checksum. *)
Variable bcrypt : string -> Z -> string -> string -> string.

(** Python's [int(s)] on a string; [None] is a [ValueError]. *)
Variable py_int : string -> option Z.

(** pydantic's [EmailStr]: [None] when the address does not validate, the
    normalised address otherwise. *)
Variable EmailStr : string -> option string.

(** [str.lower], and the one fact the handlers rely on. *)
Variable lower : string -> string.
Hypothesis lower_idem : forall s, lower (lower s) = lower s.

(** SHA-256, which HMAC applies to a key longer than its block. *)
Variable sha256 : string -> string.

(* ------------------------------------------------------------------ *)
(** *** passlib: [CryptContext(schemes=["bcrypt"])] *)

Definition bcrypt_idents : list string :=
  ["$2$"; "$2a$"; "$2x$"; "$2y$"; "$2b$"].

(** The context identifies a hash by its prefix. *)
Definition identify (hashed : string) : option string :=
  find (startswith hashed) bcrypt_idents.

Definition is_digit (c : ascii) : bool :=
  let n := nat_of_ascii c in (Nat.leb 48 n && Nat.leb n 57)%bool.

(** The alphabet of bcrypt's base64: [./A-Za-z0-9]. *)
Definition is_bcrypt64 (c : ascii) : bool :=
  let n := nat_of_ascii c in
  ((Nat.leb 46 n && Nat.leb n 57) || (Nat.leb 65 n && Nat.leb n 90)
   || (Nat.leb 97 n && Nat.leb n 122))%bool.

Fixpoint all_chars (p : ascii -> bool) (s : string) : bool :=
  match s with
  | EmptyString => true
  | String c r => (p c && all_chars p r)%bool
  end.

Fixpoint has_nul (s : string) : bool :=
  match s with
  | EmptyString => false
  | String c r => (Ascii.eqb c zero || has_nul r)%bool
  end.

Record bcrypt_hash : Type := mkHash {
  ident : string;
  rounds : Z;
  salt : string;
  checksum : option string
}.

(** [bcrypt.from_string]: identifier, two-digit cost between 04 and 31, a
    dollar, 22 salt characters, then the 31-character checksum or nothing.
    Anything else is a [ValueError]; so is the [$2x$] identifier. *)
Definition from_string (id hashed : string) : py bcrypt_hash :=
  let tail := substring (String.length id)
                        (String.length hashed - String.length id) hashed in
  match tail with
  | String d1 (String d2 (String "$" data)) =>
      let r := Z.of_nat ((nat_of_ascii d1 - 48) * 10 + (nat_of_ascii d2 - 48)) in
      let s := substring 0 22 data in
      let chk := substring 22 (String.length data - 22) data in
      if (negb (String.eqb id "$2x$") && is_digit d1 && is_digit d2
          && (4 <=? r) && (r <=? 31)
          && Nat.eqb (String.length s) 22 && all_chars is_bcrypt64 s
          && (Nat.eqb (String.length chk) 0
              || (Nat.eqb (String.length chk) 31
                  && all_chars is_bcrypt64 chk)))%bool
      then Return (mkHash id r s
                     (if Nat.eqb (String.length chk) 0 then None
                      else Some chk))
      else Raise MalformedHashError
  | _ => Raise MalformedHashError
  end.

(** [pwd_ctx.verify(secret, hash)]: identify the scheme, bound the size of
    the secret in characters, parse the hash, bound the size of the encoded
    secret in bytes, refuse a NUL in it, and compare the recomputed checksum
    with the stored one. *)
Definition pwd_ctx_verify (secret hashed : string) : py bool :=
  match identify hashed with
  | None => Raise UnknownHashError
  | Some id =>
      if 4096 <? char_len secret then Raise PasswordSizeError else
      h <- from_string id hashed ;;
      match checksum h with
      | None => Raise MissingDigestError
      | Some chk =>
          if 4096 <? len secret then Raise PasswordSizeError
          else if has_nul secret then Raise NullPasswordError
          else Return (String.eqb (bcrypt (ident h) (rounds h) (salt h) secret)
                                  chk)
      end
  end.

(** [pwd_ctx.hash(secret)]; the salt passlib draws is the argument [s]. *)
Definition pwd_ctx_hash (s secret : string) : py string :=
  if 4096 <? char_len secret then Raise PasswordSizeError
  else if 4096 <? len secret then Raise PasswordSizeError
  else if has_nul secret then Raise NullPasswordError
  else Return ("$2b$12$" ++ s ++ bcrypt "$2b$" 12 s secret).

(** [hash_pw] and [verify_pw] hand their arguments to the context and
    catch nothing. *)
Definition hash_pw (s p : string) : py string := pwd_ctx_hash s p.

Definition verify_pw (p hashed : string) : py bool := pwd_ctx_verify p hashed.

(* ------------------------------------------------------------------ *)
(** *** jose: [jwt.encode] and [jwt.decode] *)

Definition jwt_encode (claims : dict) (key algorithm : string) : token :=
  Jws algorithm key claims.

(** The key as HMAC uses it: hashed when longer than the 64-byte block,
    then padded with NULs to the block.  Keys with the same block give the
    same MAC. *)
Fixpoint nuls (n : nat) : string :=
  match n with
  | O => EmptyString
  | S m => String zero (nuls m)
  end.

Definition hmac_key (key : string) : string :=
  let k := if Nat.ltb 64 (String.length key) then sha256 key else key in
  k ++ nuls (64 - String.length k).

(** [int(claims[k])] as the validators of the registered claims use it.
    They catch the [ValueError] of a string that is no numeral and turn it
    into a [JWTClaimsError]; the [TypeError] of [None] or a list is not
    caught. *)
Definition int_claim (v : json) : py Z :=
  match v with
  | JInt n => Return n
  | JBool b => Return (if b then 1 else 0)
  | JStr s => match py_int s with
              | Some n => Return n
              | None => Raise JWTError
              end
  | JNull | JList => Raise TypeError
  end.

(** The registered claims that [jwt.decode] checks with its default
    options, no audience, no issuer, no subject and no access token: [iat]
    and [nbf] have to be integers and [nbf] not in the future; [exp] has to
    be an integer not smaller than the whole seconds of the clock; an [aud]
    or [at_hash] claim has nothing to match and fails; [sub] and [jti] have
    to be strings. *)
Definition validate_claims (claims : dict) (now : Z) : py unit :=
  _ <- match dict_get "iat" claims with
       | None => Return 0
       | Some v => int_claim v
       end ;;
  _ <- match dict_get "nbf" claims with
       | None => Return tt
       | Some v => nbf <- int_claim v ;;
                   if timegm now <? nbf then Raise JWTError else Return tt
       end ;;
  _ <- match dict_get "exp" claims with
       | None => Return tt
       | Some v => exp <- int_claim v ;;
                   if exp <? timegm now then Raise JWTError else Return tt
       end ;;
  _ <- match dict_get "aud" claims with
       | None => Return tt
       | Some _ => Raise JWTError
       end ;;
  _ <- match dict_get "sub" claims with
       | None | Some (JStr _) => Return tt
       | Some _ => Raise JWTError
       end ;;
  _ <- match dict_get "jti" claims with
       | None | Some (JStr _) => Return tt
       | Some _ => Raise JWTError
       end ;;
  match dict_get "at_hash" claims with
  | None => Return tt
  | Some _ => Raise JWTError
  end.

(** [jwt.decode(tok, key, algorithms=algorithms)] when the clock reads
    [now]. *)
Definition jwt_decode (tok : token) (key : string) (algorithms : list string)
    (now : Z) : py dict :=
  match tok with
  | Opaque _ => Raise JWTError
  | Jws alg k claims =>
      if negb (existsb (String.eqb alg) algorithms) then Raise JWTError
      else if negb (String.eqb (hmac_key k) (hmac_key key))
           then Raise JWTError
      else _ <- validate_claims claims now ;; Return claims
  end.

(* ------------------------------------------------------------------ *)
(** *** Auth helpers *)

(** [create_token(data, minutes)] when [datetime.utcnow()] is [now];
    [jwt.encode] stores the whole seconds of the [datetime] under [exp]. *)
Definition create_token (data : dict) (minutes : Z) (now : Z) : token :=
  let to_encode :=
    dict_set "exp" (JInt (timegm (now + timedelta_minutes minutes))) data in
  jwt_encode to_encode SECRET_KEY ALGORITHM.

(** [username.lower()] on what [payload.get("sub")] gave: only a string has
    the method. *)
Definition sub_lower (username : option json) : py string :=
  match username with
  | Some (JStr s) => Return (lower s)
  | Some _ | None => Raise AttributeError
  end.

(** The dependency [current_user], for a request that carries a bearer
    token: only the [try] block is guarded, and it turns a [JWTError],
    nothing else, into a 401. *)
Definition current_user (db : DB) (tok : token) (now : Z) : py User.t :=
  match (payload <- jwt_decode tok SECRET_KEY [ALGORITHM] now ;;
         Return (dict_get "sub" payload)) with
  | Raise JWTError => Raise (HTTPException 401 "Invalid token")
  | Raise e => Raise e
  | Return username =>
      name <- sub_lower username ;;
      match query_user_first db
              (fun u => String.eqb (User.username u) name) with
      | None => Raise (HTTPException 401 "User not found")
      | Some user => Return user
      end
  end.

(* ------------------------------------------------------------------ *)
(** *** Routes *)

(** [SignupIn]: [username] of 3 to 32 characters, [email] an [EmailStr],
    [password] of at least 6 characters. *)
Definition SignupIn_validate (username email password : string)
  : option SignupIn.t :=
  if ((3 <=? char_len username) && (char_len username <=? 32))%bool then
    match EmailStr email with
    | Some e =>
        if 6 <=? char_len password
        then Some (SignupIn.mk username e password)
        else None
    | None => None
    end
  else None.

(** The handler of [POST /api/signup], on a validated body.  [s] is the salt
    the hash draws and [now] the clock.  Nothing is written unless the
    handler reaches [db.commit()]. *)
Definition signup (db : DB) (data : SignupIn.t) (s : string) (now : Z)
  : DB * py TokenOut.t :=
  let uname := lower (SignupIn.username data) in
  let mail := lower (SignupIn.email data) in
  match query_user_first db (fun u => String.eqb (User.username u) uname) with
  | Some _ => (db, Raise (HTTPException 400 "Username already taken"))
  | None =>
      match query_user_first db (fun u => String.eqb (User.email u) mail) with
      | Some _ => (db, Raise (HTTPException 400 "Email already registered"))
      | None =>
          match hash_pw s (SignupIn.password data) with
          | Raise e => (db, Raise e)
          | Return h =>
              let user :=
                User.mk (next_id (map User.id (users db))) uname mail h
                        (Some "") None (Some DEFAULT_THEME) now in
              let db' := mkDB (users db ++ [user]) (links db) in
              let tok := create_token [("sub", JStr (User.username user))]
                                      ACCESS_TOKEN_MINUTES now in
              (db', Return (TokenOut.mk tok "bearer"))
          end
      end
  end.

(** [POST /api/signup]: FastAPI validates the body before it calls the
    handler. *)
Definition post_signup (db : DB) (username email password : string)
    (s : string) (now : Z) : DB * py TokenOut.t :=
  match SignupIn_validate username email password with
  | None => (db, Raise RequestValidationError)
  | Some data => signup db data s now
  end.

(** The filter of the login query: [name] is a username or an email. *)
Definition login_filter (name : string) (u : User.t) : bool :=
  (String.eqb (User.username u) name || String.eqb (User.email u) name)%bool.

(** The query of [login], [filter(login_filter).first()].  Both columns
    carry a unique index and SQLite answers the disjunction one index after
    the other: the row with that username comes first, and the row with
    that email only when no username matches. *)
Definition query_login (db : DB) (name : string) : option User.t :=
  match query_user_first db (fun u => String.eqb (User.username u) name) with
  | Some u => Some u
  | None => query_user_first db (fun u => String.eqb (User.email u) name)
  end.

(** The handler of [POST /api/login]: the form's [username] is a username
    or an email. *)
Definition login (db : DB) (form_username form_password : string) (now : Z)
  : py TokenOut.t :=
  match query_login db (lower form_username) with
  | None => Raise (HTTPException 401 "Invalid credentials")
  | Some user =>
      ok <- verify_pw form_password (User.password_hash user) ;;
      if negb ok then Raise (HTTPException 401 "Invalid credentials")
      else
        Return (TokenOut.mk
                  (create_token [("sub", JStr (User.username user))]
                                ACCESS_TOKEN_MINUTES now)
                  "bearer")
  end.

(** [POST /api/login]: [OAuth2PasswordRequestForm] requires both fields,
    and an empty form field counts as missing. *)
Definition post_login (db : DB) (form_username form_password : string)
    (now : Z) : py TokenOut.t :=
  if (String.eqb form_username "" || String.eqb form_password "")%bool
  then Raise RequestValidationError
  else login db form_username form_password now.

Definition by_order_index (l : Link.t) : Z := Link.order_index l.

(** The handler of [GET /api/me]. *)
Definition me (db : DB) (u : User.t) : UserPublic.t :=
  UserPublic.mk (User.username u) (User.bio u) (User.avatar_url u)
    (User.theme_hex u)
    (map LinkOut.model_validate (sorted by_order_index (user_links db u))).

(** [GET /api/me] behind its dependency. *)
Definition get_me (db : DB) (tok : token) (now : Z) : py UserPublic.t :=
  u <- current_user db tok now ;; Return (me db u).

(** [GET /api/profile/{username}]. *)
Definition public_profile (db : DB) (username : string) : py UserPublic.t :=
  match query_user_first db
          (fun u => String.eqb (User.username u) (lower username)) with
  | None => Raise (HTTPException 404 "User not found")
  | Some u =>
      Return (UserPublic.mk (User.username u) (User.bio u)
                (User.avatar_url u) (User.theme_hex u)
                (map LinkOut.model_validate
                     (sorted by_order_index (user_links db u))))
  end.

(** [x if x is not None else old]: the three guarded assignments. *)
Definition overwrite (new old : option string) : option string :=
  match new with
  | Some v => Some v
  | None => old
  end.

(** [db.query(Link).filter(Link.user_id == uid).delete()]. *)
Definition delete_links (uid : Z) (tbl : list Link.t) : list Link.t :=
  filter (fun l => negb (Link.user_id l =? uid)) tbl.

(** [L.order_index if L.order_index else i]: an [int] is falsy when it is
    zero. *)
Definition assigned_order_index (i : Z) (L : LinkIn.t) : Z :=
  if LinkIn.order_index L =? 0 then i else LinkIn.order_index L.

(** One [db.add(Link(...))], inserted at the commit. *)
Definition add_link (uid : Z) (tbl : list Link.t) (iL : Z * LinkIn.t)
  : list Link.t :=
  let (i, L) := iL in
  tbl ++ [Link.mk (next_id (map Link.id tbl)) uid (LinkIn.title L)
                  (LinkIn.url L) (LinkIn.icon L) (assigned_order_index i L)].

(** The loop over [enumerate(payload.links)]. *)
Definition add_links (uid : Z) (tbl : list Link.t) (ls : list LinkIn.t)
  : list Link.t :=
  fold_left (add_link uid) (enumerate ls) tbl.

(** The row of [u] after the guarded assignments. *)
Definition updated_user (payload : UpdateProfileIn.t) (u : User.t) : User.t :=
  User.mk (User.id u) (User.username u) (User.email u) (User.password_hash u)
    (overwrite (UpdateProfileIn.bio payload) (User.bio u))
    (overwrite (UpdateProfileIn.avatar_url payload) (User.avatar_url u))
    (overwrite (UpdateProfileIn.theme_hex payload) (User.theme_hex u))
    (User.created_at u).

(** The commit writes [u]'s row back under its primary key. *)
Definition write_user (u' : User.t) (tbl : list User.t) : list User.t :=
  map (fun x => if User.id x =? User.id u' then u' else x) tbl.

(** What the session holds when [update_me] reaches [db.commit()]. *)
Definition staged (db : DB) (payload : UpdateProfileIn.t) (u : User.t) : DB :=
  let u' := updated_user payload u in
  let links' :=
    match UpdateProfileIn.links payload with
    | Some ls => add_links (User.id u) (delete_links (User.id u) (links db)) ls
    | None => links db
    end in
  mkDB (write_user u' (users db)) links'.

(** Whether the inserts of the commit go through: every [order_index] has
    to fit the column.  A position is below the length of a list and always
    fits, so only a supplied value can make an insert fail. *)
Definition links_fit (payload : UpdateProfileIn.t) : bool :=
  match UpdateProfileIn.links payload with
  | Some ls => forallb (fun L => fits_int64 (LinkIn.order_index L)) ls
  | None => true
  end.

(** The handler of [PUT /api/me]: the database after the commit and the view
    [me(u)] of the refreshed user; or, when an insert overflows, the
    [OverflowError] of the driver and the database the request found, the
    transaction being rolled back. *)
Definition update_me (db : DB) (payload : UpdateProfileIn.t) (u : User.t)
  : DB * py UserPublic.t :=
  let db' := staged db payload u in
  if links_fit payload
  then (db', Return (me db' (updated_user payload u)))
  else (db, Raise OverflowError).

(** [PUT /api/me]: the dependency runs first, then the body is validated,
    then the handler. *)
Definition put_me (db : DB) (tok : token) (now : Z)
    (body : UpdateProfileIn.body) : DB * py UserPublic.t :=
  match current_user db tok now with
  | Raise e => (db, Raise e)
  | Return u =>
      match UpdateProfileIn.model_validate body with
      | None => (db, Raise RequestValidationError)
      | Some payload => update_me db payload u
      end
  end.

(* ------------------------------------------------------------------ *)
(** *** Invariants of the store and closed forms *)

(** Rows of [links] in the order of their keys, which is also the order in
    which they were inserted. *)
Definition link_before (a b : Link.t) : Prop := Link.id a < Link.id b.

(** What the handlers keep true of the database: usernames and user keys
    are unique, stored usernames are lower case, and [links] is in strictly
    increasing key order. *)
Definition wf (db : DB) : Prop :=
  NoDup (map User.username (users db)) /\
  NoDup (map User.id (users db)) /\
  Forall (fun u => lower (User.username u) = User.username u) (users db) /\
  StronglySorted link_before (links db).

(** The rows that the loop of [update_me] inserts for [ls] when the first
    free key is [n] and the first position is [i]. *)
Fixpoint rows_from (uid n i : Z) (ls : list LinkIn.t) : list Link.t :=
  match ls with
  | [] => []
  | L :: r =>
      Link.mk n uid (LinkIn.title L) (LinkIn.url L) (LinkIn.icon L)
              (assigned_order_index i L)
      :: rows_from uid (n + 1) (i + 1) r
  end.


(** The states the service can be in: the empty database, and whatever a
    signup or an authenticated update makes of a reachable one. *)
Inductive reachable : DB -> Prop :=
| reach_empty : reachable empty_db
| reach_signup db data s now :
    reachable db -> reachable (fst (signup db data s now))
| reach_update db payload u :
    reachable db -> In u (users db) ->
    reachable (fst (update_me db payload u)).





(** What the schema asks of the store besides [wf]: emails are unique and
    lower case, every link belongs to a stored user, and keys are
    positive. *)
Definition store_ok (db : DB) : Prop :=
  wf db /\
  NoDup (map User.email (users db)) /\
  Forall (fun u => lower (User.email u) = User.email u) (users db) /\
  Forall (fun l => In (Link.user_id l) (map User.id (users db))) (links db) /\
  Forall (fun u => 0 < User.id u) (users db) /\
  Forall (fun l => 0 < Link.id l) (links db).

(** The row [signup] inserts for [data] when the digest is [h]. *)
Definition new_user (db : DB) (data : SignupIn.t) (h : string) (now : Z)
  : User.t :=
  User.mk (next_id (map User.id (users db)))
          (lower (SignupIn.username data)) (lower (SignupIn.email data)) h
          (Some "") None (Some DEFAULT_THEME) now.

(** The token [signup] and [login] issue for a username at [now]. *)
Definition session_token (name : string) (now : Z) : token :=
  create_token [("sub", JStr name)] ACCESS_TOKEN_MINUTES now.

(** The last instant at which a token issued at [now] is accepted: the end
    of the second that its [exp] names. *)
Definition expiry (now : Z) : Z :=
  (timegm now + ACCESS_TOKEN_MINUTES * 60) * 1000000 + 999999.

(** bcrypt's output and the salts passlib draws have a fixed shape. *)
Definition is_salt (s : string) : Prop :=
  String.length s = 22%nat /\ all_chars is_bcrypt64 s = true.

Definition is_checksum (c : string) : Prop :=
  String.length c = 31%nat /\ all_chars is_bcrypt64 c = true.

(* ------------------------------------------------------------------ *)
(** *** Sample configuration and data *)

(** The default of [SECRET_KEY]. *)
Definition sample_key : string := "change-me-in-prod".

(** A stand-in for bcrypt, good enough to run the handlers: the password
    padded with dots to 31 characters. *)
Definition sample_bcrypt (id : string) (r : Z) (s p : string) : string :=
  substring 0 31 (p ++ "...............................").

Definition sample_int (s : string) : option Z := None.

(** A stand-in for SHA-256, applied to keys longer than 64 bytes only: the
    first 32 bytes. *)
Definition sample_sha256 (s : string) : string := substring 0 32 s.


Definition sample_email (s : string) : option string := Some s.

Definition sample_salt : string := "abcdefghijklmnopqrstuu".

Definition sample_digest (p : string) : string :=
  "$2b$12$" ++ sample_salt ++ sample_bcrypt "$2b$" 12 sample_salt p.

Definition alice : User.t :=
  User.mk 1 "alice" "alice@x.com" (sample_digest "secret1")
          (Some "") None (Some DEFAULT_THEME) 1700000000000000.

Definition bob : User.t :=
  User.mk 2 "bob" "bob@x.com" (sample_digest "hunter22")
          (Some "hi") None (Some "#112233") 1700000100000000.

(** Alice has two links of equal order index, Bob one in between. *)
Definition sample_db : DB :=
  mkDB [alice; bob]
       [Link.mk 1 1 "Old" "https://old.example" None 5;
        Link.mk 2 2 "Bob" "https://bob.example" None 0;
        Link.mk 3 1 "Older" "https://older.example" None 5].

(** The two links of the specification's scenario. *)
Definition sample_links : list LinkIn.body :=
  [LinkIn.mkBody "Site" "https://a.com" None (Some 0);
   LinkIn.mkBody "Blog" "https://b.com" None (Some 1)].


Definition links_body (l : list LinkIn.body) : UpdateProfileIn.body :=
  UpdateProfileIn.mkBody None None None (Some l).


(** [sample_links] after validation. *)
Definition sample_payload : UpdateProfileIn.t :=
  UpdateProfileIn.mk None None None
    (Some [LinkIn.mk "Site" "https://a.com" None 0;
           LinkIn.mk "Blog" "https://b.com" None 1]).



(** A link whose title has 101 characters. *)
Definition long_title_links : list LinkIn.body :=
  [LinkIn.mkBody
     ("0123456789012345678901234567890123456789012345678901234567890123456789"
      ++ "0123456789012345678901234567890")
     "https://long.example" None None].

(** Five times the letter e with an acute accent: ten bytes of UTF-8, five
    characters. *)
Definition e_acute : string :=
  String (ascii_of_nat 195) (String (ascii_of_nat 169) "").

Definition five_accents : string :=
  e_acute ++ e_acute ++ e_acute ++ e_acute ++ e_acute.


(** A token signed with the service's key whose payload has no [sub]. *)
Definition token_without_sub : token :=
  jwt_encode [("exp", JInt 4102444800)] sample_key ALGORITHM.

(** A third user signing up. *)
Definition carol_signup : SignupIn.t :=
  SignupIn.mk "Carol" "Carol@X.com" "s3cretpw".


(* ================================================================== *)
(** ** Facts about the Python layer *)

Lemma lower_ascii_idem (c : ascii) : lower_ascii (lower_ascii c) = lower_ascii c.
Proof.
  destruct c as [b0 b1 b2 b3 b4 b5 b6 b7].
  destruct b0, b1, b2, b3, b4, b5, b6, b7; reflexivity.
Qed.

Lemma ascii_lower_idem (s : string) :
  ascii_lower (ascii_lower s) = ascii_lower s.
Proof.
  induction s as [|c r IH]; simpl; [reflexivity|].
  now rewrite lower_ascii_idem, IH.
Qed.

Lemma char_len_le_len (s : string) : char_len s <= len s.
Proof.
  unfold char_len, len. apply Nat2Z.inj_le.
  induction s as [|c r IH]; cbn [code_points String.length]; [lia|].
  destruct (is_continuation c); lia.
Qed.

Section SortedFacts.
Context {A : Type} (key : A -> Z) (before : A -> A -> Prop).
Local Abbreviation key_then := (key_then key before).

Lemma insert_by_perm (x : A) (l : list A) :
  Permutation (insert_by key x l) (x :: l).
Proof.
  induction l as [|y r IH]; simpl; [apply Permutation_refl|].
  destruct (key x <=? key y); [apply Permutation_refl|].
  eapply Permutation_trans; [apply perm_skip, IH | apply perm_swap].
Qed.

Lemma sorted_perm (l : list A) : Permutation (sorted key l) l.
Proof.
  induction l as [|x r IH]; simpl; [constructor|].
  eapply Permutation_trans; [apply insert_by_perm | now apply perm_skip].
Qed.

Lemma insert_by_sorted (x : A) (l : list A) :
  StronglySorted key_then l ->
  Forall (before x) l ->
  StronglySorted key_then (insert_by key x l).
Proof.
  induction l as [|y r IH]; intros Hs Hb; simpl.
  - repeat constructor.
  - inversion Hs as [|? ? Hr Hy]; subst.
    inversion Hb as [|? ? Hxy Hxr]; subst.
    destruct (key x <=? key y) eqn:E.
    + apply Z.leb_le in E.
      constructor; [assumption|].
      constructor.
      * unfold key_then. destruct (Z.eq_dec (key x) (key y)); [right|left]; auto; lia.
      * rewrite Forall_forall in *. intros z Hz.
        specialize (Hy z Hz). specialize (Hxr z Hz).
        unfold key_then in *.
        destruct (Z.eq_dec (key x) (key z)); [right; auto|left].
        destruct Hy as [?|[? _]]; lia.
    + apply Z.leb_gt in E.
      constructor; [now apply IH|].
      eapply Permutation_Forall; [apply Permutation_sym, insert_by_perm|].
      constructor; [left; lia | assumption].
Qed.

Lemma sorted_stable (l : list A) :
  StronglySorted before l -> StronglySorted key_then (sorted key l).
Proof.
  induction l as [|x r IH]; intros Hs; simpl; [constructor|].
  inversion Hs as [|? ? Hr Hx]; subst.
  apply insert_by_sorted; [now apply IH|].
  eapply Permutation_Forall; [apply Permutation_sym, sorted_perm | assumption].
Qed.

(** There is only one such arrangement: whatever stable sort computes
    [sorted(l, key=key)], it returns the list that [sorted] returns. *)
Lemma sorted_unique (l l' : list A) :
  (forall a b, before a b -> before b a -> False) ->
  StronglySorted before l ->
  Permutation l' l -> StronglySorted key_then l' ->
  l' = sorted key l.
Proof.
  intros Hasym Hl Hp Hs'.
  assert (Hk : forall a b, key_then a b -> key_then b a -> False).
  { intros a b [H1|[H1 H1']] [H2|[H2 H2']]; try lia. eauto. }
  pose proof (sorted_stable l Hl) as Hs.
  assert (Hp' : Permutation l' (sorted key l)).
  { eapply Permutation_trans; [exact Hp | apply Permutation_sym, sorted_perm]. }
  clear Hp Hl. revert Hs Hp'. generalize (sorted key l) as m.
  induction Hs' as [|a r Hr IH Ha]; intros m Hm Hp.
  - apply Permutation_nil in Hp. now subst.
  - destruct m as [|b t];
      [apply Permutation_sym, Permutation_nil in Hp; discriminate|].
    inversion Hm as [|? ? Ht Hb]; subst.
    assert (a = b) as ->.
    { assert (Hin1 : In a (b :: t))
        by (eapply Permutation_in; [exact Hp | now left]).
      assert (Hin2 : In b (a :: r))
        by (eapply Permutation_in; [apply Permutation_sym, Hp | now left]).
      destruct Hin1 as [->|Hin1]; [reflexivity|].
      destruct Hin2 as [->|Hin2]; [reflexivity|].
      rewrite Forall_forall in Ha, Hb.
      exfalso. exact (Hk a b (Ha b Hin2) (Hb a Hin1)). }
    f_equal. apply IH; [assumption|].
    now apply Permutation_cons_inv in Hp.
Qed.

End SortedFacts.

Lemma StronglySorted_filter {A : Type} (R : A -> A -> Prop) (f : A -> bool)
    (l : list A) :
  StronglySorted R l -> StronglySorted R (filter f l).
Proof.
  induction 1 as [|x r Hr IH Hx]; simpl; [constructor|].
  destruct (f x); [|assumption].
  constructor; [assumption|].
  rewrite Forall_forall in *. intros y Hy.
  apply filter_In in Hy. now apply Hx.
Qed.


(* ================================================================== *)
(** ** Facts about the store *)

Lemma max_le_next_id (ids : list Z) :
  Forall (fun i => i < next_id ids) ids.
Proof.
  unfold next_id. induction ids as [|a r IH]; cbn [fold_right]; constructor.
  - lia.
  - eapply Forall_impl; [|exact IH]. cbv beta. intros; lia.
Qed.

Lemma next_id_snoc (ids : list Z) :
  next_id (ids ++ [next_id ids])%list = next_id ids + 1.
Proof.
  unfold next_id.
  assert (H : forall m, fold_right Z.max 0 (ids ++ [m])%list =
                        Z.max (fold_right Z.max 0 ids) (Z.max m 0)).
  { intros m. induction ids as [|a r IH]; cbn [fold_right app]; [lia|].
    rewrite IH. lia. }
  rewrite H.
  assert (0 <= fold_right Z.max 0 ids).
  { clear H. induction ids as [|a r IH]; cbn [fold_right]; lia. }
  lia.
Qed.

Lemma add_links_from (uid i : Z) (ls : list LinkIn.t) (tbl : list Link.t) :
  fold_left (add_link uid) (enumerate_from i ls) tbl =
  (tbl ++ rows_from uid (next_id (map Link.id tbl)) i ls)%list.
Proof.
  revert i tbl. induction ls as [|L r IH]; intros i tbl; simpl.
  - now rewrite app_nil_r.
  - rewrite IH. rewrite <- app_assoc. simpl.
    rewrite map_app. simpl. now rewrite next_id_snoc.
Qed.

Lemma add_links_rows (uid : Z) (tbl : list Link.t) (ls : list LinkIn.t) :
  add_links uid tbl ls =
  (tbl ++ rows_from uid (next_id (map Link.id tbl)) 0 ls)%list.
Proof. apply add_links_from. Qed.

Lemma rows_from_owner (uid n i : Z) (ls : list LinkIn.t) :
  Forall (fun l => Link.user_id l = uid) (rows_from uid n i ls).
Proof.
  revert n i. induction ls as [|L r IH]; intros n i; simpl; constructor; auto.
Qed.

Lemma rows_from_ids (uid n i : Z) (ls : list LinkIn.t) :
  Forall (fun l => n <= Link.id l) (rows_from uid n i ls).
Proof.
  revert n i. induction ls as [|L r IH]; intros n i; simpl; constructor.
  - simpl. lia.
  - eapply Forall_impl; [|apply IH]. simpl. intros; lia.
Qed.

Lemma rows_from_sorted (uid n i : Z) (ls : list LinkIn.t) :
  StronglySorted link_before (rows_from uid n i ls).
Proof.
  revert n i. induction ls as [|L r IH]; intros n i; simpl; constructor.
  - apply IH.
  - eapply Forall_impl; [|apply (rows_from_ids uid (n + 1) (i + 1) r)].
    unfold link_before. simpl. intros; lia.
Qed.

Lemma rows_from_length (uid n i : Z) (ls : list LinkIn.t) :
  List.length (rows_from uid n i ls) = List.length ls.
Proof.
  revert n i. induction ls as [|L r IH]; intros n i; simpl; auto.
Qed.




Lemma StronglySorted_app {A : Type} (R : A -> A -> Prop) (l1 l2 : list A) :
  StronglySorted R l1 -> StronglySorted R l2 ->
  (forall a b, In a l1 -> In b l2 -> R a b) ->
  StronglySorted R (l1 ++ l2)%list.
Proof.
  intros H1 H2 H12. induction H1 as [|x r Hr IH Hx]; simpl; [assumption|].
  constructor.
  - apply IH. intros a b Ha Hb. apply H12; [now right | assumption].
  - apply Forall_app. split; [assumption|].
    rewrite Forall_forall. intros b Hb. apply H12; [now left | assumption].
Qed.

Lemma NoDup_map_eq {A B : Type} (f : A -> B) (l : list A) (x y : A) :
  NoDup (map f l) -> In x l -> In y l -> f x = f y -> x = y.
Proof.
  induction l as [|a r IH]; intros Hnd Hx Hy Hf; [contradiction|].
  cbn [map] in Hnd. inversion Hnd as [|? ? Hna Hr]; subst.
  destruct Hx as [->|Hx], Hy as [->|Hy]; auto.
  - exfalso. apply Hna. rewrite Hf. now apply in_map.
  - exfalso. apply Hna. rewrite <- Hf. now apply in_map.
Qed.

Lemma find_by_key {A : Type} (key : A -> string) (l : list A) (x : A) :
  NoDup (map key l) -> In x l ->
  find (fun y => String.eqb (key y) (key x)) l = Some x.
Proof.
  induction l as [|a r IH]; intros Hnd Hx; [contradiction|].
  cbn [map] in Hnd. inversion Hnd as [|? ? Hna Hr]; subst.
  cbn [find]. destruct Hx as [->|Hx].
  - now rewrite String.eqb_refl.
  - destruct (String.eqb (key a) (key x)) eqn:E.
    + apply String.eqb_eq in E. exfalso. apply Hna. rewrite E.
      now apply in_map.
    + now apply IH.
Qed.

Lemma find_none_fresh {A : Type} (key : A -> string) (l : list A)
    (k : string) :
  find (fun y => String.eqb (key y) k) l = None -> ~ In k (map key l).
Proof.
  intros Hf Hin. apply in_map_iff in Hin. destruct Hin as [y [<- Hy]].
  pose proof (find_none _ _ Hf y Hy) as E. cbv beta in E.
  now rewrite String.eqb_refl in E.
Qed.

Lemma write_user_ids (u' : User.t) (tbl : list User.t) :
  map User.id (write_user u' tbl) = map User.id tbl.
Proof.
  unfold write_user. rewrite map_map. apply map_ext. intros x.
  destruct (User.id x =? User.id u') eqn:E; [|reflexivity].
  apply Z.eqb_eq in E. now symmetry.
Qed.

Lemma write_user_usernames (u u' : User.t) (tbl : list User.t) :
  NoDup (map User.id tbl) -> In u tbl ->
  User.id u' = User.id u -> User.username u' = User.username u ->
  map User.username (write_user u' tbl) = map User.username tbl.
Proof.
  intros Hnd Hu Hid Hname. unfold write_user. rewrite map_map.
  apply map_ext_in. intros x Hx.
  destruct (User.id x =? User.id u') eqn:E; [|reflexivity].
  apply Z.eqb_eq in E. rewrite Hid in E.
  now rewrite (NoDup_map_eq User.id tbl x u Hnd Hx Hu E).
Qed.

Lemma write_user_in (u u' : User.t) (tbl : list User.t) :
  In u tbl -> User.id u' = User.id u -> In u' (write_user u' tbl).
Proof.
  intros Hu Hid. unfold write_user. apply in_map_iff. exists u.
  split; [|assumption]. rewrite Hid, Z.eqb_refl. reflexivity.
Qed.

Lemma updated_user_id (payload : UpdateProfileIn.t) (u : User.t) :
  User.id (updated_user payload u) = User.id u.
Proof. reflexivity. Qed.

Lemma updated_user_username (payload : UpdateProfileIn.t) (u : User.t) :
  User.username (updated_user payload u) = User.username u.
Proof. reflexivity. Qed.

Lemma update_me_fst (db : DB) (payload : UpdateProfileIn.t) (u : User.t) :
  fst (update_me db payload u) =
  if links_fit payload then staged db payload u else db.
Proof. unfold update_me. now destruct (links_fit payload). Qed.

(** In what [update_me] commits, the username of [u] finds the row that
    was written. *)
Lemma query_written_user (db : DB) (payload : UpdateProfileIn.t) (u : User.t) :
  wf db -> In u (users db) ->
  query_user_first (staged db payload u)
    (fun x => String.eqb (User.username x) (lower (User.username u))) =
  Some (updated_user payload u).
Proof.
  intros (Hn & Hi & Hl & _) Hu. unfold query_user_first, staged.
  cbn [users].
  rewrite Forall_forall in Hl. rewrite (Hl u Hu).
  rewrite <- (updated_user_username payload u).
  apply find_by_key.
  - rewrite (write_user_usernames u); auto.
  - now apply write_user_in with (u := u).
Qed.

Lemma query_stored_user (db : DB) (u : User.t) :
  wf db -> In u (users db) ->
  query_user_first db
    (fun x => String.eqb (User.username x) (lower (User.username u))) =
  Some u.
Proof.
  intros (Hn & _ & Hl & _) Hu. unfold query_user_first.
  rewrite Forall_forall in Hl. rewrite (Hl u Hu).
  now apply find_by_key.
Qed.


Lemma wf_empty : wf empty_db.
Proof. repeat split; constructor. Qed.

Lemma wf_staged (db : DB) (payload : UpdateProfileIn.t) (u : User.t) :
  wf db -> In u (users db) -> wf (staged db payload u).
Proof.
  intros (Hn & Hi & Hl & Hs) Hu. unfold staged.
  unfold wf. cbn [users links].
  rewrite (write_user_usernames u), write_user_ids; auto.
  repeat split; auto.
  - rewrite Forall_forall in *. intros x Hx.
    unfold write_user in Hx. apply in_map_iff in Hx.
    destruct Hx as [y [<- Hy]].
    destruct (User.id y =? User.id (updated_user payload u)); auto.
    rewrite updated_user_username. auto.
  - destruct (UpdateProfileIn.links payload) as [ls|]; [|assumption].
    rewrite add_links_rows. apply StronglySorted_app.
    + now apply StronglySorted_filter.
    + apply rows_from_sorted.
    + intros a b Ha Hb. unfold link_before.
      pose proof (max_le_next_id
                    (map Link.id (delete_links (User.id u) (links db)))) as Hm.
      rewrite Forall_forall in Hm.
      specialize (Hm (Link.id a) (in_map Link.id _ _ Ha)).
      pose proof (rows_from_ids (User.id u)
                    (next_id (map Link.id (delete_links (User.id u) (links db))))
                    0 ls) as Hr.
      rewrite Forall_forall in Hr. specialize (Hr b Hb). cbv beta in Hr. lia.
Qed.

Lemma wf_update_me (db : DB) (payload : UpdateProfileIn.t) (u : User.t) :
  wf db -> In u (users db) -> wf (fst (update_me db payload u)).
Proof.
  intros Hwf Hu. rewrite update_me_fst.
  destruct (links_fit payload); [now apply wf_staged | assumption].
Qed.

Lemma wf_signup (db : DB) (data : SignupIn.t) (s : string) (now : Z) :
  wf db -> wf (fst (signup db data s now)).
Proof.
  intros (Hn & Hi & Hl & Hs). unfold signup.
  destruct (query_user_first db _) eqn:Eu; [repeat split; assumption|].
  destruct (query_user_first db _) eqn:Ee in |- *; [repeat split; assumption|].
  destruct (hash_pw s (SignupIn.password data)) as [h|e];
    [|repeat split; assumption].
  cbn [fst]. unfold wf. cbn [users links].
  rewrite !map_app. cbn [map User.username User.id].
  repeat split; auto.
  - apply NoDup_app; [assumption | repeat constructor; intros [] |].
    intros x Hx [<-|[]]. revert Hx. now apply find_none_fresh.
  - apply NoDup_app; [assumption | repeat constructor; intros [] |].
    intros x Hx [<-|[]].
    pose proof (max_le_next_id (map User.id (users db))) as Hm.
    rewrite Forall_forall in Hm. specialize (Hm _ Hx). cbv beta in Hm. lia.
  - apply Forall_app. split; [assumption|].
    repeat constructor. cbn [User.username]. apply lower_idem.
Qed.

Lemma reachable_wf (db : DB) : reachable db -> wf db.
Proof.
  induction 1 as [|db data s now _ IH|db payload u _ IH Hu].
  - apply wf_empty.
  - now apply wf_signup.
  - now apply wf_update_me.
Qed.

(** The user a request is resolved to is a row of [users]. *)
Lemma current_user_stored (db : DB) (tok : token) (now : Z) (u : User.t) :
  current_user db tok now = Return u -> In u (users db).
Proof.
  unfold current_user.
  destruct (bind _ _) as [name|e]; [|destruct e; discriminate].
  destruct (sub_lower name) as [n|e]; cbn [bind]; [|discriminate].
  destruct (query_user_first db _) eqn:E; [|discriminate].
  intros H. inversion H; subst.
  unfold query_user_first in E. now apply find_some in E.
Qed.




(* ================================================================== *)
(** ** Profile update *)




(* ================================================================== *)
(** ** Profile reads *)




Lemma get_me_is_me (db : DB) (tok : token) (now : Z) (view : UserPublic.t) :
  get_me db tok now = Return view ->
  exists u, In u (users db) /\ view = me db u.
Proof.
  unfold get_me. destruct (current_user db tok now) as [u|e] eqn:E;
    cbn [bind]; [|discriminate].
  intros H. inversion H; subst. exists u. split; [|reflexivity].
  now apply current_user_stored in E.
Qed.

Lemma update_me_returns
    (db db' : DB) (payload : UpdateProfileIn.t) (u : User.t)
    (view : UserPublic.t) :
  update_me db payload u = (db', Return view) ->
  links_fit payload = true /\
  db' = staged db payload u /\
  view = me db' (updated_user payload u).
Proof.
  unfold update_me. destruct (links_fit payload); [|discriminate].
  intros [= <- <-]. auto.
Qed.

(** What [PUT /api/me] answers is what [GET /api/profile/{username}] shows
    afterwards. *)
Lemma put_me_then_public_profile
    (db db' : DB) (tok : token) (now : Z) (body : UpdateProfileIn.body)
    (view : UserPublic.t) :
  wf db ->
  put_me db tok now body = (db', Return view) ->
  public_profile db' (UserPublic.username view) = Return view.
Proof.
  intros Hwf. unfold put_me.
  destruct (current_user db tok now) as [u|e] eqn:Eu; [|discriminate].
  apply current_user_stored in Eu.
  destruct (UpdateProfileIn.model_validate body) as [payload|];
    [|discriminate].
  intros Hup. apply update_me_returns in Hup. destruct Hup as (_ & -> & ->).
  cbn [me UserPublic.username]. rewrite updated_user_username.
  unfold public_profile.
  rewrite (query_written_user db payload u Hwf Eu). reflexivity.
Qed.


(** C9.  For every stored user, the view [GET /api/me] gives its owner and
    the view [GET /api/profile/{username}] gives a visitor are the same
    value, all five fields included. *)
Theorem me_equals_public_profile (db : DB) :
  wf db ->
  (forall u, In u (users db) ->
             public_profile db (User.username u) = Return (me db u)) /\
  (forall tok now view,
      get_me db tok now = Return view ->
      public_profile db (UserPublic.username view) = Return view).
Proof.
  intros Hwf.
  assert (H : forall u, In u (users db) ->
                        public_profile db (User.username u) = Return (me db u)).
  { intros u Hu. unfold public_profile.
    now rewrite (query_stored_user db u Hwf Hu). }
  split; [exact H|].
  intros tok now view Hv. apply get_me_is_me in Hv.
  destruct Hv as [u [Hu ->]]. cbn [me UserPublic.username]. now apply H.
Qed.

(* ================================================================== *)
(** ** Tokens and sessions *)

Lemma timegm_add_minutes (dt m : Z) :
  timegm (dt + timedelta_minutes m) = timegm dt + m * 60.
Proof.
  unfold timegm, timedelta_minutes.
  replace (m * 60 * 1000000) with ((m * 60) * 1000000) by lia.
  apply Z.div_add. lia.
Qed.

Lemma timegm_after (e now : Z) :
  (e <? timegm now) = ((e + 1) * 1000000 <=? now).
Proof.
  unfold timegm.
  pose proof (Z.div_mod now 1000000 ltac:(lia)) as Hd.
  pose proof (Z.mod_pos_bound now 1000000 ltac:(lia)) as Hm.
  destruct (e <? now / 1000000) eqn:E1;
    destruct ((e + 1) * 1000000 <=? now) eqn:E2; try reflexivity.
  - apply Z.ltb_lt in E1. apply Z.leb_gt in E2. lia.
  - apply Z.ltb_ge in E1. apply Z.leb_le in E2. lia.
Qed.

Lemma int_claim_raises (v : json) (e : exn) :
  int_claim v = Raise e -> e = JWTError \/ e = TypeError.
Proof.
  unfold int_claim. destruct v as [s|n|b| |]; try discriminate.
  - destruct (py_int s); [discriminate|]. intros [= <-]. now left.
  - intros [= <-]. now right.
  - intros [= <-]. now right.
Qed.

Lemma bind_raise {A B : Type} (m : py A) (k : A -> py B) (e : exn) :
  bind m k = Raise e ->
  m = Raise e \/ exists a, m = Return a /\ k a = Raise e.
Proof. destruct m as [a|e']; cbn [bind]; [eauto | intros [= ->]; auto]. Qed.

Lemma bind_return {A B : Type} (m : py A) (k : A -> py B) (b : B) :
  bind m k = Return b -> exists a, m = Return a /\ k a = Return b.
Proof. destruct m as [a|e']; cbn [bind]; [eauto | discriminate]. Qed.

Ltac next_stage H :=
  apply bind_raise in H; destruct H as [H | [? [_ H]]].

Ltac raised_jwt H := injection H as <-; now left.

Lemma validate_claims_raises (claims : dict) (now : Z) (e : exn) :
  validate_claims claims now = Raise e -> e = JWTError \/ e = TypeError.
Proof.
  unfold validate_claims. intros H.
  next_stage H.
  { destruct (dict_get "iat" claims); [|discriminate].
    now apply int_claim_raises in H. }
  next_stage H.
  { destruct (dict_get "nbf" claims); [|discriminate].
    next_stage H; [now apply int_claim_raises in H|].
    destruct (timegm now <? _); [raised_jwt H | discriminate]. }
  next_stage H.
  { destruct (dict_get "exp" claims); [|discriminate].
    next_stage H; [now apply int_claim_raises in H|].
    destruct (_ <? timegm now); [raised_jwt H | discriminate]. }
  next_stage H.
  { destruct (dict_get "aud" claims); [raised_jwt H | discriminate]. }
  next_stage H.
  { destruct (dict_get "sub" claims) as [[]|];
      first [discriminate | raised_jwt H]. }
  next_stage H.
  { destruct (dict_get "jti" claims) as [[]|];
      first [discriminate | raised_jwt H]. }
  destruct (dict_get "at_hash" claims); [raised_jwt H | discriminate].
Qed.

Lemma validate_claims_sub (claims : dict) (now : Z) :
  validate_claims claims now = Return tt ->
  dict_get "sub" claims = None \/
  exists s, dict_get "sub" claims = Some (JStr s).
Proof.
  unfold validate_claims. intros H.
  destruct (dict_get "sub" claims) as [[s|n|b| |]|]; eauto.
  all: exfalso; do 4 (apply bind_return in H; destruct H as [? [_ H]]);
    apply bind_return in H; destruct H as [? [H _]]; discriminate.
Qed.

Lemma jwt_decode_raises (tok : token) (key : string) (algs : list string)
    (now : Z) (e : exn) :
  jwt_decode tok key algs now = Raise e -> e = JWTError \/ e = TypeError.
Proof.
  unfold jwt_decode. destruct tok as [raw|alg k claims].
  - intros [= <-]. now left.
  - destruct (negb _); [intros [= <-]; now left|].
    destruct (negb _); [intros [= <-]; now left|].
    destruct (validate_claims claims now) as [[]|e'] eqn:E; cbn [bind];
      [discriminate|].
    intros [= <-]. now apply validate_claims_raises in E.
Qed.

Lemma jwt_decode_returns (tok : token) (key : string) (algs : list string)
    (now : Z) (payload : dict) :
  jwt_decode tok key algs now = Return payload ->
  exists alg k, tok = Jws alg k payload /\
                hmac_key k = hmac_key key /\
                validate_claims payload now = Return tt.
Proof.
  unfold jwt_decode. destruct tok as [raw|alg k claims]; [discriminate|].
  destruct (negb (existsb _ _)); [discriminate|].
  destruct (String.eqb (hmac_key k) (hmac_key key)) eqn:Ek; cbn [negb];
    [|discriminate].
  apply String.eqb_eq in Ek.
  destruct (validate_claims claims now) as [[]|e'] eqn:E; cbn [bind];
    [|discriminate].
  intros [= <-]. eauto.
Qed.

(** What [current_user] can do with any token: return a stored user, fail
    with one of its two 401s, or let an exception escape: an
    [AttributeError] for a token that verifies and carries no [sub], or the
    [TypeError] of jose's [int] on a time claim that is null or an
    array. *)
Lemma current_user_outcomes (db : DB) (tok : token) (now : Z) :
  (exists u, current_user db tok now = Return u /\ In u (users db)) \/
  current_user db tok now = Raise (HTTPException 401 "Invalid token") \/
  current_user db tok now = Raise (HTTPException 401 "User not found") \/
  (current_user db tok now = Raise AttributeError /\
   exists payload,
     jwt_decode tok SECRET_KEY [ALGORITHM] now = Return payload /\
     dict_get "sub" payload = None) \/
  (current_user db tok now = Raise TypeError /\
   jwt_decode tok SECRET_KEY [ALGORITHM] now = Raise TypeError).
Proof.
  destruct (current_user db tok now) as [u|e] eqn:Ecu.
  { left. exists u. split; [reflexivity|].
    now apply current_user_stored in Ecu. }
  right. revert Ecu. unfold current_user.
  destruct (jwt_decode tok SECRET_KEY [ALGORITHM] now) as [payload|e'] eqn:Ed;
    cbn [bind].
  - destruct (jwt_decode_returns _ _ _ _ _ Ed) as (alg & k & _ & _ & Hv).
    destruct (validate_claims_sub payload now Hv) as [Hs|[s Hs]];
      rewrite Hs; cbn [sub_lower bind].
    + intros [= <-]. right. right. left. split; [reflexivity|].
      exists payload. split; [reflexivity | assumption].
    + destruct (query_user_first db _); [discriminate|].
      intros [= <-]. auto.
  - apply jwt_decode_raises in Ed. destruct Ed as [-> | ->]; intros [= <-].
    + auto.
    + right. right. right. auto.
Qed.

(** C3, at the token that breaks it.  A token signed with [SECRET_KEY]
    whose payload passes jose's checks and has no [sub] claim gets through
    the guarded block with [username = None]; the call [username.lower()]
    after the block raises [AttributeError], which is no [HTTPException]:
    the client gets a bare 500, not a 401. *)
Theorem current_user_token_without_sub (db : DB) (claims : dict) (now : Z) :
  dict_get "sub" claims = None ->
  validate_claims claims now = Return tt ->
  current_user db (jwt_encode claims SECRET_KEY ALGORITHM) now =
    Raise AttributeError /\
  typed_failure AttributeError = false.
Proof.
  intros Hs Hv. split; [|reflexivity].
  unfold current_user, jwt_encode, jwt_decode.
  cbn [existsb]. rewrite !String.eqb_refl. cbn [orb negb].
  rewrite Hv. cbn [bind]. rewrite Hs. reflexivity.
Qed.


(* ================================================================== *)
(** ** Credentials *)

Lemma string_length_app (a b : string) :
  String.length (a ++ b) = (String.length a + String.length b)%nat.
Proof. induction a as [|c r IH]; cbn; [reflexivity | now rewrite IH]. Qed.

Lemma substring_all (a : string) : substring 0 (String.length a) a = a.
Proof. induction a as [|c r IH]; cbn; [reflexivity | now rewrite IH]. Qed.

Lemma substring_app_l (a b : string) :
  substring 0 (String.length a) (a ++ b) = a.
Proof.
  induction a as [|c r IH]; cbn.
  - now destruct b.
  - now rewrite IH.
Qed.

Lemma substring_app_r (a b : string) :
  substring (String.length a) (String.length b) (a ++ b) = b.
Proof.
  induction a as [|c r IH]; cbn; [apply substring_all | exact IH].
Qed.

(** A digest that [hash_pw] produced parses back into its parts, provided
    the salt is a bcrypt salt and the checksum a bcrypt checksum. *)
Lemma from_string_of_hash (s chk : string) :
  String.length s = 22%nat -> all_chars is_bcrypt64 s = true ->
  String.length chk = 31%nat -> all_chars is_bcrypt64 chk = true ->
  identify ("$2b$12$" ++ s ++ chk) = Some "$2b$" /\
  from_string "$2b$" ("$2b$12$" ++ s ++ chk) =
    Return (mkHash "$2b$" 12 s (Some chk)).
Proof.
  intros Hs Has Hc Hac. split; [reflexivity|].
  unfold from_string.
  replace (String.length ("$2b$12$" ++ s ++ chk) - String.length "$2b$")%nat
    with (3 + String.length (s ++ chk))%nat
    by (cbn [append String.length]; lia).
  cbn [append String.length substring Nat.add].
  rewrite substring_all.
  replace (substring 0 22 (s ++ chk)) with s
    by (rewrite <- Hs; now rewrite substring_app_l).
  replace (substring 22 (String.length (s ++ chk) - 22) (s ++ chk)) with chk.
  2:{ rewrite string_length_app, Hs.
      replace (22 + String.length chk - 22)%nat with (String.length chk) by lia.
      rewrite <- Hs. now rewrite substring_app_r. }
  rewrite Hs, Has, Hc, Hac. reflexivity.
Qed.

Lemma verify_pw_raises (p hashed : string) (e : exn) :
  verify_pw p hashed = Raise e ->
  e = UnknownHashError \/ e = PasswordSizeError \/ e = MalformedHashError \/
  e = MissingDigestError \/ e = NullPasswordError.
Proof.
  unfold verify_pw, pwd_ctx_verify.
  destruct (identify hashed) as [id|]; [|intros [= <-]; auto].
  destruct (4096 <? char_len p); [intros [= <-]; auto|].
  destruct (from_string id hashed) as [h|e'] eqn:E; cbn [bind].
  - destruct (checksum h); [|intros [= <-]; auto 6].
    destruct (4096 <? len p); [intros [= <-]; auto|].
    destruct (has_nul p); [intros [= <-]; auto 6 | discriminate].
  - intros [= <-]. unfold from_string in E.
    repeat match type of E with
           | context [match ?x with _ => _ end] => destruct x
           end; try discriminate; inversion E; auto.
Qed.

Lemma size_accepted (p : string) :
  len p <= 4096 -> (4096 <? char_len p) = false /\ (4096 <? len p) = false.
Proof.
  intros H. pose proof (char_len_le_len p).
  split; apply Z.ltb_ge; lia.
Qed.


(** A password checked against the digest that [hash_pw] made of another:
    a boolean, and true when the two passwords are the same. *)
Lemma verify_pw_of_hash_pw (s p0 p digest : string) :
  String.length s = 22%nat -> all_chars is_bcrypt64 s = true ->
  String.length (bcrypt "$2b$" 12 s p0) = 31%nat ->
  all_chars is_bcrypt64 (bcrypt "$2b$" 12 s p0) = true ->
  hash_pw s p0 = Return digest ->
  len p <= 4096 -> has_nul p = false ->
  verify_pw p digest =
    Return (String.eqb (bcrypt "$2b$" 12 s p) (bcrypt "$2b$" 12 s p0)).
Proof.
  intros Hs Has Hc Hac Hh Hlen Hnul.
  unfold hash_pw, pwd_ctx_hash in Hh.
  destruct (4096 <? char_len p0); [discriminate|].
  destruct (4096 <? len p0); [discriminate|].
  destruct (has_nul p0); [discriminate|].
  assert (Hd : digest = "$2b$12$" ++ s ++ bcrypt "$2b$" 12 s p0)
    by congruence.
  rewrite Hd; clear Hd Hh.
  destruct (from_string_of_hash s _ Hs Has Hc Hac) as [Hid Hfs].
  unfold verify_pw, pwd_ctx_verify. rewrite Hid.
  destruct (size_accepted p Hlen) as [-> E].
  rewrite Hfs. cbn [bind checksum ident rounds salt]. now rewrite E, Hnul.
Qed.

Lemma hash_pw_returns (s p digest : string) :
  hash_pw s p = Return digest ->
  len p <= 4096 /\ has_nul p = false /\
  digest = "$2b$12$" ++ s ++ bcrypt "$2b$" 12 s p.
Proof.
  unfold hash_pw, pwd_ctx_hash.
  destruct (4096 <? char_len p); [discriminate|].
  destruct (4096 <? len p) eqn:E; [discriminate|].
  destruct (has_nul p); [discriminate|].
  apply Z.ltb_ge in E. intros [= <-]. auto.
Qed.

Lemma hash_pw_accepts (s p : string) :
  len p <= 4096 -> has_nul p = false ->
  hash_pw s p = Return ("$2b$12$" ++ s ++ bcrypt "$2b$" 12 s p).
Proof.
  intros Hlen Hnul. unfold hash_pw, pwd_ctx_hash.
  destruct (size_accepted p Hlen) as [-> ->]. now rewrite Hnul.
Qed.

(** When [verify_pw] returns, the two ways a login is refused, no user
    matching the identifier and a matching user whose password does not
    verify, raise the same exception, and [login] raises no other
    [HTTPException]. *)
Lemma login_refusals
    (db : DB) (form_username form_password : string) (now : Z) :
  (query_login db (lower form_username) = None ->
   login db form_username form_password now =
     Raise (HTTPException 401 "Invalid credentials")) /\
  (forall user,
      query_login db (lower form_username) = Some user ->
      verify_pw form_password (User.password_hash user) = Return false ->
      login db form_username form_password now =
        Raise (HTTPException 401 "Invalid credentials")) /\
  (forall status_code detail,
      login db form_username form_password now =
        Raise (HTTPException status_code detail) ->
      status_code = 401 /\ detail = "Invalid credentials").
Proof.
  unfold login. split; [|split].
  - now intros ->.
  - intros user -> Hv. now rewrite Hv.
  - intros status_code detail.
    destruct (query_login db _) as [user|];
      [|intros [= <- <-]; now split].
    destruct (verify_pw form_password (User.password_hash user))
      as [[]|e] eqn:Ev; cbn [bind negb]; try discriminate.
    + intros [= <- <-]; now split.
    + intros [= ->]. apply verify_pw_raises in Ev.
      destruct Ev as [Ev|[Ev|[Ev|[Ev|Ev]]]]; discriminate.
Qed.

(** C6, at the input that breaks it.  With a password that contains a NUL,
    a login under an identifier that matches a user whose digest is a
    bcrypt digest ends in passlib's [NullPasswordError], which nothing
    catches: the client gets a bare 500.  The same password under an
    identifier that matches nobody gets the 401 [Invalid credentials]:
    the caller can tell the two causes apart. *)
Theorem login_nul_password
    (db : DB) (known unknown password : string) (now : Z)
    (user : User.t) (id : string) (h : bcrypt_hash) (chk : string) :
  query_login db (lower known) = Some user ->
  query_login db (lower unknown) = None ->
  known <> "" -> unknown <> "" ->
  identify (User.password_hash user) = Some id ->
  from_string id (User.password_hash user) = Return h ->
  checksum h = Some chk ->
  len password <= 4096 -> has_nul password = true ->
  post_login db known password now = Raise NullPasswordError /\
  post_login db unknown password now =
    Raise (HTTPException 401 "Invalid credentials") /\
  typed_failure NullPasswordError = false.
Proof.
  intros Hk Hu Hkn Hun Hid Hfs Hc Hlen Hnul.
  assert (Hp : String.eqb password "" = false).
  { apply String.eqb_neq. intros ->. discriminate. }
  apply String.eqb_neq in Hkn, Hun.
  unfold post_login, login. rewrite Hkn, Hun, Hp, Hk, Hu. cbn [orb].
  split; [|split; reflexivity].
  unfold verify_pw, pwd_ctx_verify. rewrite Hid.
  destruct (size_accepted password Hlen) as [-> E].
  rewrite Hfs. cbn [bind]. now rewrite Hc, E, Hnul.
Qed.

(** C10.  A signup whose password has fewer than 6 characters is refused
    at validation, before the handler runs: the response is the validation
    error and the database is the one the request found. *)
Theorem signup_short_password
    (db : DB) (username email password s : string) (now : Z) :
  char_len password < 6 ->
  post_signup db username email password s now =
    (db, Raise RequestValidationError).
Proof.
  intros Hlen. unfold post_signup, SignupIn_validate.
  destruct ((3 <=? char_len username) && (char_len username <=? 32))%bool;
    [|reflexivity].
  destruct (EmailStr email); [|reflexivity].
  destruct (6 <=? char_len password) eqn:E; [|reflexivity].
  apply Z.leb_le in E. lia.
Qed.

(* ================================================================== *)
(** ** Further properties: sessions *)

Lemma find_app {A : Type} (p : A -> bool) (l l' : list A) :
  find p (l ++ l')%list =
  match find p l with
  | Some x => Some x
  | None => find p l'
  end.
Proof.
  induction l as [|a r IH]; cbn [app find]; [reflexivity|].
  destruct (p a); [reflexivity | exact IH].
Qed.

Lemma find_fresh {A : Type} (p : A -> bool) (l : list A) :
  (forall x, In x l -> p x = false) -> find p l = None.
Proof.
  induction l as [|a r IH]; intros H; cbn [find]; [reflexivity|].
  rewrite (H a (or_introl eq_refl)). apply IH.
  intros x Hx. apply H. now right.
Qed.

Lemma find_present {A : Type} (p : A -> bool) (l : list A) (x : A) :
  In x l -> p x = true -> exists y, find p l = Some y.
Proof.
  intros Hin Hp. destruct (find p l) as [y|] eqn:E; [eauto|].
  pose proof (find_none p l E x Hin) as H. congruence.
Qed.

Lemma find_key_fresh {A : Type} (key : A -> string) (l : list A)
    (k : string) :
  ~ In k (map key l) -> find (fun y => String.eqb (key y) k) l = None.
Proof.
  intros H. apply find_fresh. intros x Hx.
  apply String.eqb_neq. intros E. apply H. rewrite <- E. now apply in_map.
Qed.

Lemma jwt_decode_session (name : string) (issued now : Z) :
  jwt_decode (session_token name issued) SECRET_KEY [ALGORITHM] now =
  if expiry issued <? now then Raise JWTError
  else Return [("sub", JStr name);
               ("exp", JInt (timegm issued + ACCESS_TOKEN_MINUTES * 60))].
Proof.
  unfold session_token, create_token, jwt_encode, jwt_decode, expiry.
  rewrite timegm_add_minutes.
  cbn [existsb dict_set String.eqb Ascii.eqb Bool.eqb].
  rewrite !String.eqb_refl. cbn [orb negb].
  unfold validate_claims.
  cbn [dict_get String.eqb Ascii.eqb Bool.eqb int_claim bind].
  rewrite timegm_after.
  set (e := timegm issued + ACCESS_TOKEN_MINUTES * 60).
  destruct ((e + 1) * 1000000 <=? now) eqn:E1;
    destruct (e * 1000000 + 999999 <? now) eqn:E2; try reflexivity.
  - apply Z.leb_le in E1. apply Z.ltb_ge in E2. lia.
  - apply Z.leb_gt in E1. apply Z.ltb_lt in E2. lia.
Qed.

Lemma current_user_session (db : DB) (name : string) (issued now : Z) :
  current_user db (session_token name issued) now =
  if expiry issued <? now then Raise (HTTPException 401 "Invalid token")
  else match query_user_first db
               (fun u => String.eqb (User.username u) (lower name)) with
       | None => Raise (HTTPException 401 "User not found")
       | Some u => Return u
       end.
Proof.
  unfold current_user. rewrite jwt_decode_session.
  destruct (expiry issued <? now); reflexivity.
Qed.

(** A token that resolved to [u] resolves, against any database, to the row
    that has [u]'s username there. *)
Lemma current_user_elsewhere (db db2 : DB) (tok : token) (now : Z) (u : User.t) :
  current_user db tok now = Return u ->
  current_user db2 tok now =
  match query_user_first db2
          (fun x => String.eqb (User.username x) (User.username u)) with
  | None => Raise (HTTPException 401 "User not found")
  | Some v => Return v
  end.
Proof.
  unfold current_user.
  destruct (bind _ _) as [sub|e]; [|destruct e; discriminate].
  destruct (sub_lower sub) as [name|e]; cbn [bind]; [|discriminate].
  destruct (query_user_first db _) as [v|] eqn:E; [|discriminate].
  intros [= ->]. unfold query_user_first in E. apply find_some in E.
  destruct E as [_ E]. apply String.eqb_eq in E. now rewrite E.
Qed.

(** X1.  A token issued for a name is accepted until the end of the second
    that its [exp] names, and is resolved without regard to the case of the
    name: it yields the stored user whose username is the lowered name, and
    401 [User not found] when no user has it. *)
Theorem session_token_resolution
    (db : DB) (name : string) (issued now : Z) :
  wf db -> now <= expiry issued ->
  (forall u, In u (users db) -> lower name = User.username u ->
             current_user db (session_token name issued) now = Return u) /\
  (~ In (lower name) (map User.username (users db)) ->
   current_user db (session_token name issued) now =
     Raise (HTTPException 401 "User not found")).
Proof.
  intros Hwf Hnow. rewrite current_user_session.
  destruct (expiry issued <? now) eqn:E; [apply Z.ltb_lt in E; lia|].
  split.
  - intros u Hu Hname. rewrite Hname.
    destruct Hwf as (Hn & _). unfold query_user_first.
    now rewrite (find_by_key User.username (users db) u Hn Hu).
  - intros Hfresh. unfold query_user_first.
    now rewrite (find_key_fresh User.username (users db) _ Hfresh).
Qed.

Lemma query_login_some (db : DB) (name : string) (u : User.t) :
  query_login db name = Some u ->
  In u (users db) /\ login_filter name u = true.
Proof.
  unfold query_login, query_user_first, login_filter.
  destruct (find _ (users db)) as [v|] eqn:E1.
  - intros [= <-]. apply find_some in E1. destruct E1 as [Hin E1].
    split; [assumption|]. now rewrite E1.
  - intros E2. apply find_some in E2. destruct E2 as [Hin E2].
    split; [assumption|]. rewrite E2. apply orb_true_r.
Qed.

(** X2.  A login that succeeds was matched to a stored user whose password
    verified, and the bearer token it returns opens that user's session
    until the token expires. *)
Theorem login_opens_session
    (db : DB) (form_username form_password : string) (now : Z)
    (t : TokenOut.t) :
  wf db ->
  login db form_username form_password now = Return t ->
  exists u,
    In u (users db) /\
    login_filter (lower form_username) u = true /\
    verify_pw form_password (User.password_hash u) = Return true /\
    t = TokenOut.mk (session_token (User.username u) now) "bearer" /\
    forall now', now' <= expiry now ->
                 current_user db (TokenOut.access_token t) now' = Return u.
Proof.
  intros Hwf. unfold login.
  destruct (query_login db _) as [u|] eqn:Eq; [|discriminate].
  apply query_login_some in Eq. destruct Eq as [Hu Hf].
  destruct (verify_pw form_password (User.password_hash u)) as [[]|e] eqn:Ev;
    cbn [bind negb]; try discriminate.
  intros [= <-]. exists u. repeat split; try assumption.
  intros now' Hnow'. cbn [TokenOut.access_token].
  fold (session_token (User.username u) now).
  rewrite current_user_session.
  destruct (expiry now <? now') eqn:E; [apply Z.ltb_lt in E; lia|].
  now rewrite (query_stored_user db u Hwf Hu).
Qed.

(* ================================================================== *)
(** ** Further properties: signup *)

Lemma signup_fresh (db : DB) (data : SignupIn.t) (s : string) (now : Z) :
  ~ In (lower (SignupIn.username data)) (map User.username (users db)) ->
  ~ In (lower (SignupIn.email data)) (map User.email (users db)) ->
  len (SignupIn.password data) <= 4096 ->
  has_nul (SignupIn.password data) = false ->
  let h := "$2b$12$" ++ s ++ bcrypt "$2b$" 12 s (SignupIn.password data) in
  hash_pw s (SignupIn.password data) = Return h /\
  signup db data s now =
    (mkDB (users db ++ [new_user db data h now]) (links db),
     Return (TokenOut.mk (session_token (lower (SignupIn.username data)) now)
                         "bearer")).
Proof.
  intros Hu He Hlen Hnul h.
  assert (Hh : hash_pw s (SignupIn.password data) = Return h)
    by now apply hash_pw_accepts.
  split; [exact Hh|]. unfold signup, query_user_first.
  rewrite (find_key_fresh User.username (users db) _ Hu).
  rewrite (find_key_fresh User.email (users db) _ He).
  rewrite Hh. reflexivity.
Qed.

Lemma new_user_links (db : DB) (data : SignupIn.t) (h : string) (now : Z) :
  store_ok db ->
  user_links (mkDB (users db ++ [new_user db data h now]) (links db))
             (new_user db data h now) = [].
Proof.
  intros (_ & _ & _ & Hfk & _). unfold user_links. cbn [links new_user User.id].
  induction (links db) as [|l r IH]; [reflexivity|].
  inversion Hfk as [|? ? Hl Hr]; subst. cbn [filter].
  destruct (Link.user_id l =? next_id (map User.id (users db))) eqn:E;
    [|now apply IH].
  apply Z.eqb_eq in E.
  pose proof (max_le_next_id (map User.id (users db))) as Hm.
  rewrite Forall_forall in Hm. specialize (Hm _ Hl). cbv beta in Hm. lia.
Qed.

(** X3.  Signup refuses a username or an email that is already stored,
    whatever the case it is written in, with a 400, and writes nothing; the
    username is checked first. *)
Theorem signup_conflicts
    (db : DB) (data : SignupIn.t) (s : string) (now : Z) (u : User.t) :
  In u (users db) ->
  (lower (SignupIn.username data) = User.username u ->
   signup db data s now =
     (db, Raise (HTTPException 400 "Username already taken"))) /\
  (~ In (lower (SignupIn.username data)) (map User.username (users db)) ->
   lower (SignupIn.email data) = User.email u ->
   signup db data s now =
     (db, Raise (HTTPException 400 "Email already registered"))).
Proof.
  intros Hu. unfold signup, query_user_first. split.
  - intros Hname.
    destruct (find_present
                (fun x => String.eqb (User.username x)
                                     (lower (SignupIn.username data)))
                (users db) u Hu) as [y Hy].
    { rewrite Hname. apply String.eqb_refl. }
    now rewrite Hy.
  - intros Hfresh Hmail.
    rewrite (find_key_fresh User.username (users db) _ Hfresh).
    destruct (find_present
                (fun x => String.eqb (User.email x)
                                     (lower (SignupIn.email data)))
                (users db) u Hu) as [y Hy].
    { rewrite Hmail. apply String.eqb_refl. }
    now rewrite Hy.
Qed.

(** X4.  A signup with a fresh username and email and a password passlib
    accepts adds one row, with the lowered username and email, an empty bio,
    no avatar and the default theme; the token it returns opens the new
    user's session until it expires, and the new public profile has no
    links. *)
Theorem signup_opens_session
    (db : DB) (data : SignupIn.t) (s : string) (now : Z) :
  store_ok db ->
  ~ In (lower (SignupIn.username data)) (map User.username (users db)) ->
  ~ In (lower (SignupIn.email data)) (map User.email (users db)) ->
  len (SignupIn.password data) <= 4096 ->
  has_nul (SignupIn.password data) = false ->
  exists h,
    hash_pw s (SignupIn.password data) = Return h /\
    let user := new_user db data h now in
    let db' := mkDB (users db ++ [user]) (links db) in
    let tok := session_token (lower (SignupIn.username data)) now in
    signup db data s now = (db', Return (TokenOut.mk tok "bearer")) /\
    (forall now', now' <= expiry now ->
                  current_user db' tok now' = Return user) /\
    public_profile db' (SignupIn.username data) =
      Return (UserPublic.mk (lower (SignupIn.username data)) (Some "") None
                            (Some DEFAULT_THEME) []).
Proof.
  intros Hok Hu He Hlen Hnul.
  destruct (signup_fresh db data s now Hu He Hlen Hnul) as [Hh Hs].
  eexists. split; [exact Hh|]. cbv zeta.
  set (h := "$2b$12$" ++ s ++ bcrypt "$2b$" 12 s (SignupIn.password data)) in *.
  assert (Hq : forall k,
             k = lower (SignupIn.username data) ->
             query_user_first
               (mkDB (users db ++ [new_user db data h now]) (links db))
               (fun x => String.eqb (User.username x) k)
             = Some (new_user db data h now)).
  { intros k ->. unfold query_user_first. cbn [users]. rewrite find_app.
    rewrite (find_key_fresh User.username (users db) _ Hu).
    cbn [find new_user User.username]. now rewrite String.eqb_refl. }
  split; [exact Hs|]. split.
  - intros now' Hnow'. rewrite current_user_session.
    destruct (expiry now <? now') eqn:E; [apply Z.ltb_lt in E; lia|].
    now rewrite (Hq _ (lower_idem _)).
  - unfold public_profile. rewrite (Hq _ eq_refl).
    rewrite (new_user_links db data h now Hok). reflexivity.
Qed.

(** X5.  After such a signup the same password logs the user in through
    [POST /api/login], under the username, and under the email when no
    stored username is that email; the identifier may be in any case. *)
Theorem signup_then_login
    (db : DB) (data : SignupIn.t) (s : string) (now now' : Z) :
  ~ In (lower (SignupIn.username data)) (map User.username (users db)) ->
  ~ In (lower (SignupIn.email data)) (map User.email (users db)) ->
  SignupIn.password data <> "" ->
  len (SignupIn.password data) <= 4096 ->
  has_nul (SignupIn.password data) = false ->
  is_salt s -> is_checksum (bcrypt "$2b$" 12 s (SignupIn.password data)) ->
  let db' := fst (signup db data s now) in
  let t := TokenOut.mk (session_token (lower (SignupIn.username data)) now')
                       "bearer" in
  (forall name,
      name <> "" ->
      lower name = lower (SignupIn.username data) ->
      post_login db' name (SignupIn.password data) now' = Return t) /\
  (forall name,
      name <> "" ->
      lower name = lower (SignupIn.email data) ->
      ~ In (lower name) (map User.username (users db)) ->
      post_login db' name (SignupIn.password data) now' = Return t).
Proof.
  intros Hu He Hpw Hlen Hnul [Hs1 Hs2] [Hc1 Hc2] db' t.
  destruct (signup_fresh db data s now Hu He Hlen Hnul) as [Hh Hsig].
  set (h := "$2b$12$" ++ s ++ bcrypt "$2b$" 12 s (SignupIn.password data)) in *.
  assert (Hdb : db' = mkDB (users db ++ [new_user db data h now]) (links db)).
  { subst db'. now rewrite Hsig. }
  assert (Hv : verify_pw (SignupIn.password data) h = Return true).
  { rewrite (verify_pw_of_hash_pw s (SignupIn.password data)
               (SignupIn.password data) h Hs1 Hs2 Hc1 Hc2 Hh Hlen Hnul).
    now rewrite String.eqb_refl. }
  assert (Hlogin : forall name,
             name <> "" ->
             query_login db' (lower name) = Some (new_user db data h now) ->
             post_login db' name (SignupIn.password data) now' = Return t).
  { intros name Hne Hq. unfold post_login, login.
    apply String.eqb_neq in Hne, Hpw. rewrite Hne, Hpw, Hq. cbn [orb].
    cbn [new_user User.password_hash]. rewrite Hv. reflexivity. }
  split.
  - intros name Hne Hname. apply Hlogin; [exact Hne|]. rewrite Hname, Hdb.
    unfold query_login, query_user_first. cbn [users].
    rewrite find_app, (find_key_fresh User.username (users db) _ Hu).
    cbn [find new_user User.username]. now rewrite String.eqb_refl.
  - intros name Hne Hname Hother. apply Hlogin; [exact Hne|]. rewrite Hdb.
    unfold query_login, query_user_first. cbn [users].
    rewrite find_app, (find_key_fresh User.username (users db) _ Hother).
    cbn [find new_user User.username].
    destruct (String.eqb (lower (SignupIn.username data)) (lower name));
      [reflexivity|].
    rewrite Hname.
    rewrite find_app, (find_key_fresh User.email (users db) _ He).
    cbn [find new_user User.email]. now rewrite String.eqb_refl.
Qed.

Lemma signup_failure
    (db db' : DB) (data : SignupIn.t) (s : string) (now : Z) (e : exn) :
  signup db data s now = (db', Raise e) ->
  db' = db /\ e <> RequestValidationError.
Proof.
  unfold signup, hash_pw, pwd_ctx_hash.
  destruct (query_user_first db _); [intros [= <- <-]; split; congruence|].
  destruct (query_user_first db _); [intros [= <- <-]; split; congruence|].
  destruct (4096 <? char_len _); [intros [= <- <-]; split; congruence|].
  destruct (4096 <? len _); [intros [= <- <-]; split; congruence|].
  destruct (has_nul _); [intros [= <- <-]; split; congruence|].
  discriminate.
Qed.

(** X6.  [POST /api/signup], on a body with its three string fields,
    writes nothing when it fails, whatever the failure; and the failure is
    the validation error exactly when the username is shorter than 3 or
    longer than 32 characters, the email does not validate, or the password
    is shorter than 6 characters. *)
Theorem post_signup_failure
    (db db' : DB) (username email password s : string) (now : Z) (e : exn) :
  post_signup db username email password s now = (db', Raise e) ->
  db' = db /\
  (e = RequestValidationError <->
   char_len username < 3 \/ 32 < char_len username \/ EmailStr email = None \/
   char_len password < 6).
Proof.
  unfold post_signup, SignupIn_validate.
  destruct (3 <=? char_len username) eqn:E1; cbn [andb].
  2:{ intros [= <- <-]. split; [reflexivity|]. apply Z.leb_gt in E1.
      split; auto. }
  destruct (char_len username <=? 32) eqn:E2.
  2:{ intros [= <- <-]. split; [reflexivity|]. apply Z.leb_gt in E2.
      split; auto. }
  destruct (EmailStr email) as [mail|] eqn:E3.
  2:{ intros [= <- <-]. split; [reflexivity|]. split; auto. }
  destruct (6 <=? char_len password) eqn:E4.
  2:{ intros [= <- <-]. split; [reflexivity|]. apply Z.leb_gt in E4.
      split; auto. }
  apply Z.leb_le in E1, E2, E4. intros Hs.
  apply signup_failure in Hs. destruct Hs as [-> Hne].
  split; [reflexivity|]. split; [contradiction|].
  intros [H|[H|[H|H]]]; try lia; discriminate.
Qed.

(* ================================================================== *)
(** ** Further properties: the store *)

Lemma write_user_emails (u u' : User.t) (tbl : list User.t) :
  NoDup (map User.id tbl) -> In u tbl ->
  User.id u' = User.id u -> User.email u' = User.email u ->
  map User.email (write_user u' tbl) = map User.email tbl.
Proof.
  intros Hnd Hu Hid Hmail. unfold write_user. rewrite map_map.
  apply map_ext_in. intros x Hx.
  destruct (User.id x =? User.id u') eqn:E; [|reflexivity].
  apply Z.eqb_eq in E. rewrite Hid in E.
  now rewrite (NoDup_map_eq User.id tbl x u Hnd Hx Hu E).
Qed.

Lemma next_id_positive (ids : list Z) : 0 < next_id ids.
Proof.
  unfold next_id.
  assert (0 <= fold_right Z.max 0 ids)
    by (induction ids as [|a r IH]; cbn [fold_right]; lia).
  lia.
Qed.

Lemma store_ok_empty : store_ok empty_db.
Proof. repeat split; constructor. Qed.

Lemma store_ok_signup (db : DB) (data : SignupIn.t) (s : string) (now : Z) :
  store_ok db -> store_ok (fst (signup db data s now)).
Proof.
  intros (Hwf & He & Hl & Hfk & Hup & Hlp).
  split; [now apply wf_signup|]. unfold signup.
  destruct (query_user_first db _) eqn:Eu; [repeat split; assumption|].
  destruct (query_user_first db _) eqn:Ee in |- *; [repeat split; assumption|].
  destruct (hash_pw s (SignupIn.password data)) as [h|e];
    [|repeat split; assumption].
  cbn [fst users links]. rewrite !map_app. cbn [map User.email User.id].
  repeat split.
  - apply NoDup_app; [assumption | repeat constructor; intros [] |].
    intros x Hx [<-|[]]. revert Hx. now apply find_none_fresh.
  - apply Forall_app. split; [assumption|].
    repeat constructor. cbn [User.email]. apply lower_idem.
  - eapply Forall_impl; [|exact Hfk]. cbv beta. intros l Hin.
    apply in_or_app. now left.
  - apply Forall_app. split; [assumption|].
    repeat constructor. cbn [User.id]. apply next_id_positive.
  - assumption.
Qed.

Lemma store_ok_staged (db : DB) (payload : UpdateProfileIn.t) (u : User.t) :
  store_ok db -> In u (users db) -> store_ok (staged db payload u).
Proof.
  intros (Hwf & He & Hl & Hfk & Hup & Hlp) Hu.
  split; [now apply wf_staged|].
  destruct Hwf as (_ & Hi & _ & _).
  unfold staged. cbn [users links].
  rewrite (write_user_emails u), write_user_ids; auto.
  assert (Hkept : forall l, In l (delete_links (User.id u) (links db)) ->
                            In l (links db)).
  { intros l Hin. unfold delete_links in Hin. now apply filter_In in Hin. }
  rewrite Forall_forall in Hl, Hfk, Hup, Hlp.
  repeat split; auto.
  - rewrite Forall_forall. intros x Hx.
    unfold write_user in Hx. apply in_map_iff in Hx.
    destruct Hx as [y [<- Hy]].
    destruct (User.id y =? User.id (updated_user payload u)); auto.
    cbn [updated_user User.email]. auto.
  - destruct (UpdateProfileIn.links payload) as [ls|];
      [|now rewrite Forall_forall].
    rewrite add_links_rows. apply Forall_app. split.
    + rewrite Forall_forall. auto.
    + eapply Forall_impl; [|apply rows_from_owner]. cbv beta.
      intros l ->. now apply in_map.
  - rewrite Forall_forall. intros x Hx.
    unfold write_user in Hx. apply in_map_iff in Hx.
    destruct Hx as [y [<- Hy]].
    destruct (User.id y =? User.id (updated_user payload u)); auto.
    rewrite updated_user_id. auto.
  - destruct (UpdateProfileIn.links payload) as [ls|];
      [|now rewrite Forall_forall].
    rewrite add_links_rows. apply Forall_app. split.
    + rewrite Forall_forall. auto.
    + eapply Forall_impl; [|apply rows_from_ids]. cbv beta. intros l Hle.
      pose proof (next_id_positive
                    (map Link.id (delete_links (User.id u) (links db)))).
      lia.
Qed.

Lemma store_ok_update_me (db : DB) (payload : UpdateProfileIn.t) (u : User.t) :
  store_ok db -> In u (users db) ->
  store_ok (fst (update_me db payload u)).
Proof.
  intros Hok Hu. rewrite update_me_fst.
  destruct (links_fit payload); [now apply store_ok_staged | assumption].
Qed.

(** X7.  Whatever sequence of signups and authenticated updates the service
    has gone through, the store respects its schema: usernames, emails and
    user keys are unique, usernames and emails are stored in lower case,
    the links are in key order, every link belongs to a stored user, and
    every key is positive. *)
Theorem reachable_store_ok (db : DB) : reachable db -> store_ok db.
Proof.
  induction 1 as [|db data s now _ IH|db payload u _ IH Hu].
  - apply store_ok_empty.
  - now apply store_ok_signup.
  - now apply store_ok_update_me.
Qed.

(** X8.  An update by one user leaves every other user alone: a row with
    another key is in [users] after the update exactly when it was before,
    and the links of such a user are the same rows in the same order. *)
Theorem update_me_frame
    (db : DB) (payload : UpdateProfileIn.t) (u v : User.t) :
  User.id v <> User.id u ->
  let db' := fst (update_me db payload u) in
  (In v (users db') <-> In v (users db)) /\
  user_links db' v = user_links db v.
Proof.
  intros Hne db'. subst db'. rewrite update_me_fst.
  destruct (links_fit payload); [|split; reflexivity].
  unfold staged. cbn [users links]. split.
  - unfold write_user. rewrite in_map_iff. split.
    + intros [x [Hx Hin]].
      destruct (User.id x =? User.id (updated_user payload u)) eqn:E.
      * subst v. now rewrite updated_user_id in Hne.
      * now subst x.
    + intros Hin. exists v. split; [|assumption].
      rewrite updated_user_id.
      destruct (User.id v =? User.id u) eqn:E; [|reflexivity].
      apply Z.eqb_eq in E. contradiction.
  - unfold user_links. cbn [links].
    destruct (UpdateProfileIn.links payload) as [ls|]; [|reflexivity].
    rewrite add_links_rows, filter_app.
    assert (Hrows : filter (fun l => Link.user_id l =? User.id v)
                           (rows_from (User.id u)
                              (next_id (map Link.id
                                 (delete_links (User.id u) (links db)))) 0 ls)
                    = []).
    { generalize (rows_from_owner (User.id u)
                    (next_id (map Link.id
                       (delete_links (User.id u) (links db)))) 0 ls).
      generalize (rows_from (User.id u)
                    (next_id (map Link.id
                       (delete_links (User.id u) (links db)))) 0 ls).
      induction 1 as [|l r Hl _ IH]; cbn [filter]; [reflexivity|].
      rewrite Hl. destruct (User.id u =? User.id v) eqn:E; [|exact IH].
      apply Z.eqb_eq in E. now symmetry in E. }
    rewrite Hrows, app_nil_r. clear Hrows. unfold delete_links.
    induction (links db) as [|l r IH]; cbn [filter]; [reflexivity|].
    destruct (Link.user_id l =? User.id u) eqn:Eu; cbn [negb filter].
    + apply Z.eqb_eq in Eu.
      destruct (Link.user_id l =? User.id v) eqn:Ev; [|exact IH].
      apply Z.eqb_eq in Ev. congruence.
    + destruct (Link.user_id l =? User.id v); [now rewrite IH | exact IH].
Qed.

Lemma overwrite_idem (new old : option string) :
  overwrite new (overwrite new old) = overwrite new old.
Proof. now destruct new. Qed.

Lemma delete_links_idem (uid : Z) (tbl : list Link.t) :
  delete_links uid (delete_links uid tbl) = delete_links uid tbl.
Proof.
  unfold delete_links. induction tbl as [|l r IH]; cbn [filter];
    [reflexivity|].
  destruct (negb (Link.user_id l =? uid)) eqn:E; [|exact IH].
  cbn [filter]. now rewrite E, IH.
Qed.

Lemma delete_links_own (uid : Z) (rows : list Link.t) :
  Forall (fun l => Link.user_id l = uid) rows -> delete_links uid rows = [].
Proof.
  unfold delete_links. induction 1 as [|l r Hl _ IH]; cbn [filter];
    [reflexivity|].
  now rewrite Hl, Z.eqb_refl.
Qed.

Lemma delete_links_app (uid : Z) (a b : list Link.t) :
  delete_links uid (a ++ b) = (delete_links uid a ++ delete_links uid b)%list.
Proof. unfold delete_links. apply filter_app. Qed.

(** X9.  [PUT /api/me] is idempotent: sending the same body again, as the
    same user, leaves the database and the answer as the first request
    made them. *)
Theorem update_me_idempotent
    (db : DB) (payload : UpdateProfileIn.t) (u : User.t) :
  update_me (fst (update_me db payload u)) payload (updated_user payload u)
  = update_me db payload u.
Proof.
  assert (Hu : updated_user payload (updated_user payload u)
               = updated_user payload u).
  { unfold updated_user. cbn [User.id User.username User.email
      User.password_hash User.bio User.avatar_url User.theme_hex
      User.created_at]. now rewrite !overwrite_idem. }
  rewrite update_me_fst. unfold update_me.
  destruct (links_fit payload); [|reflexivity].
  set (db1 := staged db payload u).
  assert (Hdb : staged db1 payload (updated_user payload u) = db1).
  { subst db1. unfold staged. cbn [users links]. rewrite Hu, updated_user_id.
    f_equal.
    - unfold write_user. rewrite map_map. apply map_ext. intros x.
      destruct (User.id x =? User.id (updated_user payload u)) eqn:E;
        [now rewrite Z.eqb_refl | now rewrite E].
    - destruct (UpdateProfileIn.links payload) as [ls|]; [|reflexivity].
      f_equal. rewrite add_links_rows, delete_links_app.
      rewrite delete_links_idem,
        (delete_links_own _ _ (rows_from_owner _ _ _ _)).
      apply app_nil_r. }
  now rewrite Hdb, Hu.
Qed.

(* ================================================================== *)
(** ** Further properties: reads and updates *)






(** X11.  What [PUT /api/me] answers is what is stored: on the database it
    leaves, [GET /api/profile/{username}] and [GET /api/me] with the same
    token give the same view, and the store is still well formed. *)
Theorem put_me_persisted
    (db db' : DB) (tok : token) (now : Z) (body : UpdateProfileIn.body)
    (view : UserPublic.t) :
  wf db ->
  put_me db tok now body = (db', Return view) ->
  wf db' /\
  public_profile db' (UserPublic.username view) = Return view /\
  get_me db' tok now = Return view.
Proof.
  intros Hwf Hput.
  pose proof (put_me_then_public_profile db db' tok now body view Hwf Hput)
    as Hpub.
  revert Hput. unfold put_me.
  destruct (current_user db tok now) as [u|e] eqn:Eu; [|discriminate].
  pose proof (current_user_stored db tok now u Eu) as Hin.
  destruct (UpdateProfileIn.model_validate body) as [payload|];
    [|discriminate].
  intros Eup.
  destruct (update_me_returns db db' payload u view Eup) as (_ & Hd & Hv).
  split; [rewrite Hd; now apply wf_staged|]. split; [exact Hpub|].
  unfold get_me. rewrite (current_user_elsewhere db db' tok now u Eu).
  destruct Hwf as (Hn & Hi & Hl & Hs).
  rewrite Forall_forall in Hl. rewrite <- (Hl u Hin). rewrite Hd.
  rewrite (query_written_user db payload u (conj Hn (conj Hi (conj
             (proj2 (Forall_forall _ _) Hl) Hs))) Hin).
  cbn [bind]. now rewrite <- Hd, Hv.
Qed.


Lemma validate_links_none (bodies : list LinkIn.body) :
  UpdateProfileIn.validate_links bodies = None <->
  Exists (fun b => 100 < char_len (LinkIn.body_title b)) bodies.
Proof.
  induction bodies as [|b r IH]; cbn [UpdateProfileIn.validate_links].
  - split; [discriminate | intros H; inversion H].
  - unfold LinkIn.model_validate.
    destruct (char_len (LinkIn.body_title b) <=? 100) eqn:E.
    + apply Z.leb_le in E.
      destruct (UpdateProfileIn.validate_links r) as [xs|].
      * split; [discriminate|]. intros H. inversion H; subst; [lia|].
        now apply IH in H1.
      * split; [|reflexivity]. intros _. apply Exists_cons_tl. now apply IH.
    + apply Z.leb_gt in E. split; [|reflexivity].
      intros _. now apply Exists_cons_hd.
Qed.

(** X13.  An update whose body has a link with a title longer than 100
    characters is refused: the body does not validate, and once the session
    is resolved [PUT /api/me] answers with the validation error and writes
    nothing. *)
Theorem update_body_refused
    (db : DB) (tok : token) (now : Z) (u : User.t)
    (body : UpdateProfileIn.body) (bodies : list LinkIn.body) :
  current_user db tok now = Return u ->
  UpdateProfileIn.body_links body = Some bodies ->
  Exists (fun b => 100 < char_len (LinkIn.body_title b)) bodies ->
  UpdateProfileIn.model_validate body = None /\
  put_me db tok now body = (db, Raise RequestValidationError).
Proof.
  intros Hu Hb Hex.
  assert (Hv : UpdateProfileIn.model_validate body = None).
  { unfold UpdateProfileIn.model_validate. rewrite Hb.
    apply validate_links_none in Hex. now rewrite Hex. }
  split; [exact Hv|]. unfold put_me. now rewrite Hu, Hv.
Qed.

(** X14.  The public profile is looked up without regard to case: a name
    whose lowering is a stored username gives that user's view, the same
    one [me] builds, and any other name gives 404 [User not found]. *)
Theorem public_profile_any_case (db : DB) (name : string) :
  wf db ->
  (forall u, In u (users db) -> lower name = User.username u ->
             public_profile db name = Return (me db u)) /\
  (~ In (lower name) (map User.username (users db)) ->
   public_profile db name = Raise (HTTPException 404 "User not found")).
Proof.
  intros (Hn & _). unfold public_profile, query_user_first. split.
  - intros u Hu Hname. rewrite Hname.
    now rewrite (find_by_key User.username (users db) u Hn Hu).
  - intros Hfresh.
    now rewrite (find_key_fresh User.username (users db) _ Hfresh).
Qed.

(** X15.  Hashing and verifying round-trip: the digest [hash_pw] makes of a
    password verifies that password, and verifies another password that
    passlib accepts exactly when bcrypt gives both the same checksum under
    the digest's salt. *)
Theorem hash_pw_then_verify_pw (s p digest : string) :
  is_salt s -> is_checksum (bcrypt "$2b$" 12 s p) ->
  hash_pw s p = Return digest ->
  verify_pw p digest = Return true /\
  forall q, len q <= 4096 -> has_nul q = false ->
            (verify_pw q digest = Return true <->
             bcrypt "$2b$" 12 s q = bcrypt "$2b$" 12 s p).
Proof.
  intros [Hs1 Hs2] [Hc1 Hc2] Hh.
  assert (Hp : len p <= 4096 /\ has_nul p = false).
  { unfold hash_pw, pwd_ctx_hash in Hh.
    destruct (4096 <? char_len p); [discriminate|].
    destruct (4096 <? len p) eqn:E; [discriminate|].
    destruct (has_nul p); [discriminate|].
    apply Z.ltb_ge in E. now split. }
  destruct Hp as [Hlen Hnul]. split.
  - rewrite (verify_pw_of_hash_pw s p p digest Hs1 Hs2 Hc1 Hc2 Hh Hlen Hnul).
    now rewrite String.eqb_refl.
  - intros q Hq1 Hq2.
    rewrite (verify_pw_of_hash_pw s p q digest Hs1 Hs2 Hc1 Hc2 Hh Hq1 Hq2).
    split.
    + intros [= H]. now apply String.eqb_eq.
    + intros ->. now rewrite String.eqb_refl.
Qed.

End Service.

(* ================================================================== *)
(** ** The handlers on the sample configuration *)

Lemma sample_db_wf : wf ascii_lower sample_db.
Proof.
  unfold wf, sample_db, link_before. cbn.
  repeat split; repeat constructor; cbn; try lia.
  all: intros H; repeat destruct H as [H|H]; try discriminate; assumption.
Qed.

(** The first scenario of the specification: signup, public read, update
    with two links, public read. *)
Example scenario_signup_update_read :
  let r1 := post_signup sample_key sample_bcrypt sample_email ascii_lower
              empty_db "Alice" "alice@x.com" "secret1" sample_salt
              1700000000000000 in
  let T := Jws "HS256" sample_key
               [("sub", JStr "alice"); ("exp", JInt 1701209600)] in
  let r2 := put_me sample_key sample_int ascii_lower sample_sha256 (fst r1) T
              1700000060000000 (links_body sample_links) in
  snd r1 = Return (TokenOut.mk T "bearer") /\
  public_profile ascii_lower (fst r1) "alice" =
    Return (UserPublic.mk "alice" (Some "") None (Some "#00ff88") []) /\
  public_profile ascii_lower (fst r2) "alice" =
    Return (UserPublic.mk "alice" (Some "") None (Some "#00ff88")
              [LinkOut.mk "Site" "https://a.com" None 0 1;
               LinkOut.mk "Blog" "https://b.com" None 1 2]).
Proof. repeat split. Qed.

(** The second scenario: the email of a login is matched whatever its
    case. *)
Example scenario_login_by_email :
  post_login sample_key sample_bcrypt ascii_lower sample_db
             "ALICE@X.COM" "secret1" 1700000000000000
  = Return (TokenOut.mk
              (Jws "HS256" sample_key
                   [("sub", JStr "alice"); ("exp", JInt 1701209600)])
              "bearer").
Proof. reflexivity. Qed.





Lemma current_user_token_without_sub_witness :
  dict_get "sub" [("exp", JInt 4102444800)] = None /\
  current_user sample_key sample_int ascii_lower sample_sha256 sample_db
               token_without_sub 1700000000000000
    = Raise AttributeError.
Proof.
  split; [reflexivity|].
  exact (proj1 (current_user_token_without_sub sample_key sample_int
                  ascii_lower sample_sha256 sample_db
                  [("exp", JInt 4102444800)] 1700000000000000
                  eq_refl eq_refl)).
Defined.





Lemma login_nul_password_witness :
  query_login sample_db (ascii_lower "Alice") = Some alice /\
  query_login sample_db (ascii_lower "Mallory") = None /\
  has_nul (String zero "x") = true /\
  post_login sample_key sample_bcrypt ascii_lower sample_db
             "Alice" (String zero "x") 1700000000000000
    = Raise NullPasswordError /\
  post_login sample_key sample_bcrypt ascii_lower sample_db
             "Mallory" (String zero "x") 1700000000000000
    = Raise (HTTPException 401 "Invalid credentials").
Proof.
  split; [reflexivity|]. split; [reflexivity|]. split; [reflexivity|].
  assert (H1 : "Alice" <> "") by discriminate.
  assert (H2 : "Mallory" <> "") by discriminate.
  assert (H3 : len (String zero "x") <= 4096) by discriminate.
  destruct (login_nul_password sample_key sample_bcrypt ascii_lower sample_db
              "Alice" "Mallory" (String zero "x") 1700000000000000 alice
              "$2b$"
              (mkHash "$2b$" 12 sample_salt
                      (Some (sample_bcrypt "$2b$" 12 sample_salt "secret1")))
              (sample_bcrypt "$2b$" 12 sample_salt "secret1")
              eq_refl eq_refl H1 H2 eq_refl eq_refl eq_refl H3 eq_refl)
    as (Ha & Hb & _).
  split; [exact Ha | exact Hb].
Defined.



Lemma me_equals_public_profile_witness :
  wf ascii_lower sample_db /\ In bob (users sample_db) /\
  public_profile ascii_lower sample_db "bob" = Return (me sample_db bob) /\
  get_me sample_key sample_int ascii_lower sample_sha256 sample_db
         (create_token sample_key [("sub", JStr "bob")] ACCESS_TOKEN_MINUTES
                       1700000000000000) 1700000001000000
    = Return (me sample_db bob).
Proof.
  split; [exact sample_db_wf|]. split; [right; left; reflexivity|].
  split; [|reflexivity].
  exact (proj1 (me_equals_public_profile sample_key sample_int ascii_lower
                  sample_sha256 sample_db sample_db_wf)
           bob (or_intror (or_introl eq_refl))).
Defined.

Lemma signup_short_password_witness :
  char_len five_accents < 6 /\ len five_accents = 10 /\
  post_signup sample_key sample_bcrypt sample_email ascii_lower sample_db
              "carol" "carol@x.com" five_accents sample_salt 1700000000000000
    = (sample_db, Raise RequestValidationError).
Proof.
  split; [reflexivity|]. split; [reflexivity|].
  apply signup_short_password. reflexivity.
Defined.

(* ================================================================== *)
(** ** The further properties on the sample configuration *)

Lemma sample_db_store_ok : store_ok ascii_lower sample_db.
Proof.
  split; [exact sample_db_wf|]. unfold sample_db. cbn [users links].
  split; [|split; [|split; [|split]]].
  - repeat constructor; cbn; unfold not;
      intros H; repeat destruct H as [H|H]; try discriminate; assumption.
  - repeat constructor.
  - rewrite Forall_forall. intros l Hl. cbn in Hl.
    repeat destruct Hl as [<-|Hl]; cbn; auto.
  - repeat constructor.
  - repeat constructor.
Qed.

Lemma sample_salt_ok : is_salt sample_salt.
Proof. split; reflexivity. Qed.

Lemma sample_checksum_ok :
  is_checksum (sample_bcrypt "$2b$" 12 sample_salt "s3cretpw").
Proof. split; reflexivity. Qed.

Lemma carol_is_new :
  ~ In (ascii_lower (SignupIn.username carol_signup))
       (map User.username (users sample_db)) /\
  ~ In (ascii_lower (SignupIn.email carol_signup))
       (map User.email (users sample_db)).
Proof. split; cbn; unfold not; intros [E|[E|[]]]; discriminate. Qed.

Lemma session_token_resolution_witness :
  wf ascii_lower sample_db /\ 1701209600999999 <= expiry 1700000000000000 /\
  current_user sample_key sample_int ascii_lower sample_sha256 sample_db
    (session_token sample_key "ALICE" 1700000000000000) 1701209600999999
    = Return alice /\
  current_user sample_key sample_int ascii_lower sample_sha256 sample_db
    (session_token sample_key "mallory" 1700000000000000) 1701209600999999
    = Raise (HTTPException 401 "User not found").
Proof.
  assert (H : 1701209600999999 <= expiry 1700000000000000) by discriminate.
  split; [exact sample_db_wf|]. split; [exact H|]. split.
  - exact (proj1 (session_token_resolution sample_key sample_int ascii_lower
                    sample_sha256 sample_db "ALICE" 1700000000000000
                    1701209600999999 sample_db_wf H)
             alice (or_introl eq_refl) eq_refl).
  - apply (proj2 (session_token_resolution sample_key sample_int ascii_lower
                    sample_sha256 sample_db "mallory" 1700000000000000
                    1701209600999999 sample_db_wf H)).
    cbn. unfold not. intros [E|[E|[]]]; discriminate.
Defined.

Lemma login_opens_session_witness :
  login sample_key sample_bcrypt ascii_lower sample_db "Bob" "hunter22"
        1700000000000000 =
    Return (TokenOut.mk (session_token sample_key "bob" 1700000000000000)
                        "bearer")
  /\
  exists u,
    In u (users sample_db) /\
    current_user sample_key sample_int ascii_lower sample_sha256 sample_db
      (session_token sample_key "bob" 1700000000000000) 1700000500000000
    = Return u.
Proof.
  split; [reflexivity|].
  destruct (login_opens_session sample_key sample_bcrypt sample_int
              ascii_lower sample_sha256 sample_db
              "Bob" "hunter22" 1700000000000000 _ sample_db_wf eq_refl)
    as (u & Hu & _ & _ & _ & Hs).
  exists u. split; [exact Hu|]. apply Hs. discriminate.
Defined.

Lemma signup_conflicts_witness :
  In alice (users sample_db) /\
  signup sample_key sample_bcrypt ascii_lower sample_db
         (SignupIn.mk "ALICE" "new@x.com" "secret99") sample_salt
         1700000000000000
    = (sample_db, Raise (HTTPException 400 "Username already taken")) /\
  signup sample_key sample_bcrypt ascii_lower sample_db
         (SignupIn.mk "alice2" "Alice@X.com" "secret99") sample_salt
         1700000000000000
    = (sample_db, Raise (HTTPException 400 "Email already registered")).
Proof.
  split; [left; reflexivity|]. split.
  - exact (proj1 (signup_conflicts sample_key sample_bcrypt ascii_lower
                    sample_db (SignupIn.mk "ALICE" "new@x.com" "secret99")
                    sample_salt 1700000000000000 alice (or_introl eq_refl))
             eq_refl).
  - apply (proj2 (signup_conflicts sample_key sample_bcrypt ascii_lower
                    sample_db (SignupIn.mk "alice2" "Alice@X.com" "secret99")
                    sample_salt 1700000000000000 alice (or_introl eq_refl)));
      [|reflexivity].
    cbn. unfold not. intros [E|[E|[]]]; discriminate.
Defined.

Lemma signup_opens_session_witness :
  store_ok ascii_lower sample_db /\
  public_profile ascii_lower
    (fst (signup sample_key sample_bcrypt ascii_lower sample_db carol_signup
                 sample_salt 1700000000000000)) "Carol"
    = Return (UserPublic.mk "carol" (Some "") None (Some DEFAULT_THEME) []).
Proof.
  split; [exact sample_db_store_ok|].
  assert (H3 : len (SignupIn.password carol_signup) <= 4096) by discriminate.
  destruct (signup_opens_session sample_key sample_bcrypt sample_int
              ascii_lower ascii_lower_idem sample_sha256 sample_db
              carol_signup sample_salt 1700000000000000 sample_db_store_ok
              (proj1 carol_is_new) (proj2 carol_is_new) H3 eq_refl)
    as (h & _ & Hs & _ & Hp).
  rewrite Hs. exact Hp.
Defined.

Lemma signup_then_login_witness :
  is_salt sample_salt /\
  post_login sample_key sample_bcrypt ascii_lower
        (fst (signup sample_key sample_bcrypt ascii_lower sample_db
                     carol_signup sample_salt 1700000000000000))
        "CAROL@x.com" "s3cretpw" 1700000777000000
    = Return (TokenOut.mk (session_token sample_key "carol" 1700000777000000)
                          "bearer") /\
  post_login sample_key sample_bcrypt ascii_lower
        (fst (signup sample_key sample_bcrypt ascii_lower sample_db
                     carol_signup sample_salt 1700000000000000))
        "CaRoL" "s3cretpw" 1700000777000000
    = Return (TokenOut.mk (session_token sample_key "carol" 1700000777000000)
                          "bearer").
Proof.
  split; [exact sample_salt_ok|].
  assert (H0 : SignupIn.password carol_signup <> "") by discriminate.
  assert (H3 : len (SignupIn.password carol_signup) <= 4096) by discriminate.
  assert (H4 : "CAROL@x.com" <> "") by discriminate.
  assert (H5 : "CaRoL" <> "") by discriminate.
  pose proof (signup_then_login sample_key sample_bcrypt ascii_lower
                sample_db carol_signup sample_salt 1700000000000000
                1700000777000000 (proj1 carol_is_new) (proj2 carol_is_new)
                H0 H3 eq_refl sample_salt_ok sample_checksum_ok) as [Hn He].
  split.
  - apply (He "CAROL@x.com" H4 eq_refl).
    cbn. unfold not. intros [E|[E|[]]]; discriminate.
  - apply (Hn "CaRoL" H5 eq_refl).
Defined.

Lemma post_signup_failure_witness :
  post_signup sample_key sample_bcrypt sample_email ascii_lower sample_db
              "al" "al@x.com" "secret99" sample_salt 1700000000000000
    = (sample_db, Raise RequestValidationError) /\
  (char_len "al" < 3 \/ 32 < char_len "al" \/
   sample_email "al@x.com" = None \/ char_len "secret99" < 6).
Proof.
  split; [reflexivity|].
  exact (proj1 (proj2 (post_signup_failure sample_key sample_bcrypt
                         sample_email ascii_lower sample_db sample_db
                         "al" "al@x.com" "secret99" sample_salt
                         1700000000000000
                         RequestValidationError eq_refl)) eq_refl).
Defined.

Lemma reachable_store_ok_witness :
  let db1 := fst (signup sample_key sample_bcrypt ascii_lower empty_db
                         carol_signup sample_salt 1700000000000000) in
  let carol := new_user ascii_lower empty_db carol_signup
                        (sample_digest "s3cretpw") 1700000000000000 in
  let db2 := fst (update_me db1 sample_payload carol) in
  reachable sample_key sample_bcrypt ascii_lower db2 /\
  List.length (links db2) = 2%nat /\
  store_ok ascii_lower db2.
Proof.
  cbv zeta.
  assert (H : reachable sample_key sample_bcrypt ascii_lower
                (fst (update_me
                        (fst (signup sample_key sample_bcrypt ascii_lower
                                     empty_db carol_signup sample_salt
                                     1700000000000000))
                        sample_payload
                        (new_user ascii_lower empty_db carol_signup
                                  (sample_digest "s3cretpw")
                                  1700000000000000)))).
  { apply reach_update; [apply reach_signup, reach_empty|].
    left. reflexivity. }
  split; [exact H|]. split; [reflexivity|].
  exact (reachable_store_ok sample_key sample_bcrypt ascii_lower
           ascii_lower_idem _ H).
Defined.

Lemma update_me_frame_witness :
  User.id bob <> User.id alice /\
  user_links (fst (update_me sample_db sample_payload alice)) bob
    = user_links sample_db bob /\
  In bob (users (fst (update_me sample_db sample_payload alice))).
Proof.
  assert (H : User.id bob <> User.id alice) by discriminate.
  split; [exact H|].
  destruct (update_me_frame sample_db sample_payload alice bob H) as [Hin Hl].
  split; [exact Hl|]. apply Hin. right. left. reflexivity.
Defined.


Lemma put_me_persisted_witness :
  wf ascii_lower sample_db /\
  exists db' view,
    put_me sample_key sample_int ascii_lower sample_sha256 sample_db
           (session_token sample_key "alice" 1700000000000000)
           1700000001000000 (links_body sample_links) = (db', Return view) /\
    public_profile ascii_lower db' "alice" = Return view /\
    get_me sample_key sample_int ascii_lower sample_sha256 db'
           (session_token sample_key "alice" 1700000000000000)
           1700000001000000
      = Return view.
Proof.
  split; [exact sample_db_wf|].
  eexists. eexists. split; [reflexivity|].
  pose proof (put_me_persisted sample_key sample_int ascii_lower
                sample_sha256 sample_db _
                (session_token sample_key "alice" 1700000000000000)
                1700000001000000
                (links_body sample_links) _ sample_db_wf eq_refl)
    as (_ & Hp & Hg).
  split; [exact Hp | exact Hg].
Defined.


Lemma update_body_refused_witness :
  current_user sample_key sample_int ascii_lower sample_sha256 sample_db
    (session_token sample_key "alice" 1700000000000000) 1700000001000000
    = Return alice /\
  put_me sample_key sample_int ascii_lower sample_sha256 sample_db
         (session_token sample_key "alice" 1700000000000000)
         1700000001000000 (links_body long_title_links)
    = (sample_db, Raise RequestValidationError).
Proof.
  split; [reflexivity|].
  assert (H : Exists (fun b => 100 < char_len (LinkIn.body_title b))
                     long_title_links)
    by (apply Exists_cons_hd; reflexivity).
  exact (proj2 (update_body_refused sample_key sample_int ascii_lower
                  sample_sha256 sample_db
                  (session_token sample_key "alice" 1700000000000000)
                  1700000001000000 alice (links_body long_title_links)
                  long_title_links eq_refl eq_refl H)).
Defined.

Lemma public_profile_any_case_witness :
  wf ascii_lower sample_db /\
  public_profile ascii_lower sample_db "BoB" = Return (me sample_db bob) /\
  public_profile ascii_lower sample_db "carol" =
    Raise (HTTPException 404 "User not found").
Proof.
  split; [exact sample_db_wf|]. split.
  - exact (proj1 (public_profile_any_case ascii_lower sample_db "BoB"
                    sample_db_wf)
             bob (or_intror (or_introl eq_refl)) eq_refl).
  - apply (proj2 (public_profile_any_case ascii_lower sample_db "carol"
                    sample_db_wf)).
    cbn. unfold not. intros [E|[E|[]]]; discriminate.
Defined.

Lemma hash_pw_then_verify_pw_witness :
  is_salt sample_salt /\
  hash_pw sample_bcrypt sample_salt "s3cretpw"
    = Return (sample_digest "s3cretpw") /\
  verify_pw sample_bcrypt "s3cretpw" (sample_digest "s3cretpw") = Return true.
Proof.
  split; [exact sample_salt_ok|]. split; [reflexivity|].
  exact (proj1 (hash_pw_then_verify_pw sample_bcrypt sample_salt "s3cretpw"
                  (sample_digest "s3cretpw") sample_salt_ok
                  sample_checksum_ok eq_refl)).
Defined.
